(** * The Veil ledger: a hash-chained, append-only event log

    Shallow embedding of [src/veil/ledger.py] and the properties of its
    three public operations, [append_ledger_entry], [verify_ledger] and
    [migrate_ledger_in_place].

    Layout of the development:
    - [Sha256]   : the digest of [hashlib.sha256(..).hexdigest()];
    - [PyFloat]  : binary64 values, [repr], [float(str)], [int(float)];
    - [Py]       : the JSON-shaped Python values the ledger holds, with the
                   builtins the code applies to them ([str], [int],
                   [float], truthiness, [==], [dict.get], [json.dumps]);
    - [Ledger]   : the file store, the error/state monad and the functions
                   of ledger.py, one definition per source function;
    - [Disk]     : the bytes under the store, for the files [load_ledger]
                   and [_load_json_list] cannot read;
    - the theorems, one per property. *)

From Stdlib Require Import ZArith List String Ascii Bool Lia SpecFloat.
From stdpp Require Import base option list strings gmap.

Set Warnings "-register-all".

Local Open Scope string_scope.
Local Open Scope Z_scope.

(* ===================================================================== *)
(** * SHA-256 (FIPS 180-4), on bytes given as integers in [0, 255]        *)
(* ===================================================================== *)

Module Sha256.

Definition w32 (x : Z) : Z := Z.land x 0xffffffff.
Definition add32 (x y : Z) : Z := w32 (x + y).
Definition rotr (n x : Z) : Z := Z.lor (Z.shiftr x n) (w32 (Z.shiftl x (32 - n))).
Definition not32 (x : Z) : Z := Z.lxor x 0xffffffff.

Definition Ch (x y z : Z) : Z := Z.lxor (Z.land x y) (Z.land (not32 x) z).
Definition Maj (x y z : Z) : Z :=
  Z.lxor (Z.lxor (Z.land x y) (Z.land x z)) (Z.land y z).
Definition bsig0 (x : Z) : Z := Z.lxor (Z.lxor (rotr 2 x) (rotr 13 x)) (rotr 22 x).
Definition bsig1 (x : Z) : Z := Z.lxor (Z.lxor (rotr 6 x) (rotr 11 x)) (rotr 25 x).
Definition ssig0 (x : Z) : Z := Z.lxor (Z.lxor (rotr 7 x) (rotr 18 x)) (Z.shiftr x 3).
Definition ssig1 (x : Z) : Z := Z.lxor (Z.lxor (rotr 17 x) (rotr 19 x)) (Z.shiftr x 10).

(** The round constants are the first 32 bits of the fractional parts of
    the cube roots of the first 64 primes, the initial chaining value
    those of the square roots of the first 8 primes. *)
Definition is_prime (p : Z) : bool :=
  forallb (fun d => negb (p mod Z.of_nat d =? 0)) (seq 2 (Z.to_nat p - 2)).

Definition primes_below (n : nat) : list Z :=
  filter (fun p => is_prime p = true) (map Z.of_nat (seq 2 (n - 2))).

(** The largest [r + c] with [c < 2^bits] and [(r + c)^3 <= x]. *)
Fixpoint cube_root (bits : nat) (x r : Z) : Z :=
  match bits with
  | O => r
  | S b =>
      let c := r + 2 ^ Z.of_nat b in
      if c * c * c <=? x then cube_root b x c else cube_root b x r
  end.

Definition frac32_cbrt (p : Z) : Z := w32 (cube_root 36 (p * 2 ^ 96) 0).
Definition frac32_sqrt (p : Z) : Z := w32 (Z.sqrt (p * 2 ^ 64)).

Definition K : list Z := Eval vm_compute in map frac32_cbrt (primes_below 312).

(** The eight working variables / the chaining value. *)
Record regs := Regs { ra : Z; rb : Z; rc : Z; rd : Z; re : Z; rf : Z; rg : Z; rh : Z }.

Definition H0 : regs :=
  Eval vm_compute in
  match map frac32_sqrt (primes_below 20) with
  | [a; b; c; d; e; f; g; h] => Regs a b c d e f g h
  | _ => Regs 0 0 0 0 0 0 0 0
  end.

(** Padding: a 1 bit, zeros up to 56 mod 64 bytes, the bit length on 8 bytes. *)
Definition be_bytes (n : nat) (x : Z) : list Z :=
  map (fun i => Z.land (Z.shiftr x (8 * Z.of_nat i)) 0xff) (rev (seq 0 n)).

Definition pad (msg : list Z) : list Z :=
  let len := Z.of_nat (length msg) in
  let zeros := Z.to_nat ((55 - len) mod 64) in
  msg ++ [0x80] ++ repeat 0 zeros ++ be_bytes 8 (8 * len).

Fixpoint be_word (bs : list Z) (acc : Z) : Z :=
  match bs with
  | [] => acc
  | b :: bs' => be_word bs' (Z.lor (Z.shiftl acc 8) b)
  end.

(** Sixteen big-endian words of one 64-byte block. *)
Fixpoint words (n : nat) (bs : list Z) : list Z :=
  match n with
  | O => []
  | S n' => be_word (take 4 bs) 0 :: words n' (drop 4 bs)
  end.

(** Message schedule: [win] holds W[t-16 .. t-1], oldest first. *)
Definition next_w (win : list Z) : Z :=
  add32 (add32 (ssig1 (nth 14 win 0)) (nth 9 win 0))
        (add32 (ssig0 (nth 1 win 0)) (nth 0 win 0)).

Fixpoint extend (n : nat) (win : list Z) : list Z :=
  match n with
  | O => []
  | S n' => let w := next_w win in w :: extend n' (tl win ++ [w])
  end.

Definition schedule (block : list Z) : list Z :=
  let w16 := words 16 block in w16 ++ extend 48 w16.

Definition round (s : regs) (kw : Z * Z) : regs :=
  let '(k, w) := kw in
  let t1 := add32 (add32 (add32 (rh s) (bsig1 (re s))) (add32 (Ch (re s) (rf s) (rg s)) k)) w in
  let t2 := add32 (bsig0 (ra s)) (Maj (ra s) (rb s) (rc s)) in
  Regs (add32 t1 t2) (ra s) (rb s) (rc s) (add32 (rd s) t1) (re s) (rf s) (rg s).

Definition compress (h : regs) (block : list Z) : regs :=
  let s := fold_left round (combine K (schedule block)) h in
  Regs (add32 (ra h) (ra s)) (add32 (rb h) (rb s)) (add32 (rc h) (rc s))
       (add32 (rd h) (rd s)) (add32 (re h) (re s)) (add32 (rf h) (rf s))
       (add32 (rg h) (rg s)) (add32 (rh h) (rh s)).

Fixpoint blocks (n : nat) (bs : list Z) (h : regs) : regs :=
  match n with
  | O => h
  | S n' => blocks n' (drop 64 bs) (compress h (take 64 bs))
  end.

Definition digest (msg : list Z) : regs :=
  let p := pad msg in blocks (length p / 64) p H0.

(** Lower-case hexadecimal, as [hexdigest] prints it. *)
Definition hex_digit (x : Z) : ascii :=
  ascii_of_nat (Z.to_nat (if x <? 10 then 48 + x else 87 + x)).

Definition nib (w : Z) (i : Z) : ascii := hex_digit (Z.land (Z.shiftr w (4 * i)) 0xf).

Definition hex8 (w : Z) (k : string) : string :=
  String (nib w 7) (String (nib w 6) (String (nib w 5) (String (nib w 4)
  (String (nib w 3) (String (nib w 2) (String (nib w 1) (String (nib w 0) k))))))).

Definition hexdigest (msg : list Z) : string :=
  let h := digest msg in
  hex8 (ra h) (hex8 (rb h) (hex8 (rc h) (hex8 (rd h)
  (hex8 (re h) (hex8 (rf h) (hex8 (rg h) (hex8 (rh h) ""))))))).

End Sha256.

(* ===================================================================== *)
(** * Characters, decimal numerals                                        *)
(* ===================================================================== *)

(** A Python [str] is modelled by a Rocq [string] whose characters are the
    code points U+0000 to U+00FF. *)

Definition code (c : ascii) : Z := Z.of_nat (nat_of_ascii c).
Definition chr (z : Z) : ascii := ascii_of_nat (Z.to_nat z).

Definition is_digit (c : ascii) : bool := (48 <=? code c) && (code c <=? 57).

Fixpoint digits_go (fuel : nat) (n : Z) (acc : string) : string :=
  match fuel with
  | O => acc
  | S fuel' =>
      let acc' := String (chr (48 + n mod 10)) acc in
      if n <? 10 then acc' else digits_go fuel' (n / 10) acc'
  end.

(** Decimal numeral of a natural number [0 <= n]. *)
Definition decimal (n : Z) : string := digits_go (S (Z.to_nat (Z.log2 n))) n "".

(** [int.__repr__] *)
Definition int_repr (z : Z) : string :=
  if z <? 0 then "-" ++ decimal (- z) else decimal z.

Fixpoint zeros (n : nat) : string :=
  match n with O => "" | S n' => String "0" (zeros n') end.

(* ===================================================================== *)
(** * Python floats: IEEE 754 binary64                                    *)
(* ===================================================================== *)

Module PyFloat.

Definition float := spec_float.
Definition prec : Z := 53.
Definition emax : Z := 1024.

Definition is_zero (f : float) : bool :=
  match f with S754_zero _ => true | _ => false end.

(** [float(n)] for an int [n]; [None] is OverflowError. Rounds to nearest,
    ties to even. *)
Definition of_Z (z : Z) : option float :=
  match binary_normalize prec emax z 0 false with
  | S754_infinity _ => None
  | f => Some f
  end.

(** [int(x)] for a finite [x = (-1)^s * m * 2^e]: truncation towards zero. *)
Definition trunc (s : bool) (m : positive) (e : Z) : Z :=
  let a := if 0 <=? e then Z.shiftl (Zpos m) e else Z.shiftr (Zpos m) (- e) in
  if s then - a else a.

(** [x == n] for a float [x] and an int [n]: exact comparison. *)
Definition eq_Z (f : float) (z : Z) : bool :=
  match f with
  | S754_zero _ => z =? 0
  | S754_finite s m e =>
      let v := if s then Zneg m else Zpos m in
      if 0 <=? e then Z.shiftl v e =? z else v =? Z.shiftl z (- e)
  | _ => false
  end.

(** ** [repr]: the shortest decimal that reads back as the same float *)

(** [num / den >= 10^j] *)
Definition ge_pow10 (num den j : Z) : bool :=
  10 ^ (Z.max j 0) * den <=? num * 10 ^ (Z.max (- j) 0).

Fixpoint log10_up (fuel : nat) (num den j : Z) : Z :=
  match fuel with
  | O => j
  | S fuel' => if ge_pow10 num den (j + 1) then log10_up fuel' num den (j + 1) else j
  end.

(** [floor (log10 (num / den))] for positive [num], [den]. *)
Definition floor_log10 (num den : Z) : Z :=
  log10_up 8 num den ((Z.log2 num - Z.log2 den - 1) * 1233 / 4096 - 1).

(** The float [m * 2^e] and the ends of its rounding interval, the
    midpoints to its two neighbours, all in units of [2^(e-2)]. *)
Definition bounds (m : positive) (e : Z) : Z * Z * Z :=
  let d := if (Zpos m =? 2 ^ 52) && (-1074 <? e) then 1 else 2 in
  (4 * Zpos m, 4 * Zpos m - d, 4 * Zpos m + 2).

(** The multiple of [10^k] nearest to [m * 2^e] that lies in the rounding
    interval, if there is one; ties go to the even multiple. *)
Definition candidate (m : positive) (e k : Z) : option Z :=
  let '(v, lo, hi) := bounds m e in
  let q := e - 2 in
  let sn := 2 ^ (Z.max q 0) * 10 ^ (Z.max (- k) 0) in
  let den := 2 ^ (Z.max (- q) 0) * 10 ^ (Z.max k 0) in
  let inside x :=
    if Z.even (Zpos m)
    then (lo * sn <=? x * den) && (x * den <=? hi * sn)
    else (lo * sn <? x * den) && (x * den <? hi * sn) in
  let d := (v * sn) / den in
  let r := v * sn - d * den in
  match inside d, inside (d + 1) with
  | true, true =>
      Some (match 2 * r ?= den with
            | Lt => d
            | Gt => d + 1
            | Eq => if Z.even d then d else d + 1
            end)
  | true, false => Some d
  | false, true => Some (d + 1)
  | false, false => None
  end.

Fixpoint shortest (fuel : nat) (m : positive) (e k : Z) : Z * Z :=
  match candidate m e k with
  | Some d => (d, k)
  | None =>
      match fuel with
      | O => (Zpos m * 2 ^ (Z.max e 0) * 10 ^ (Z.max (- k) 0) / 2 ^ (Z.max (- e) 0), k)
      | S fuel' => shortest fuel' m e (k - 1)
      end
  end.

Fixpoint strip_zeros (fuel : nat) (d k : Z) : Z * Z :=
  match fuel with
  | O => (d, k)
  | S fuel' => if (d mod 10 =? 0) && (0 <? d) then strip_zeros fuel' (d / 10) (k + 1) else (d, k)
  end.

(** The decimal digits [ds] and the position [decpt] of the decimal point:
    [m * 2^e = 0.ds * 10^decpt]. *)
Definition digits (m : positive) (e : Z) : string * Z :=
  let q := e - 2 in
  let j := floor_log10 (4 * Zpos m * 2 ^ (Z.max q 0)) (2 ^ (Z.max (- q) 0)) in
  let '(d, k) := shortest 17 m e j in
  let '(d', k') := strip_zeros 18 d k in
  let ds := decimal d' in
  (ds, Z.of_nat (String.length ds) + k').

Definition pad2 (s : string) : string :=
  match s with String c "" => String "0" s | _ => s end.

(** [format_float_short] with format code 'r'. *)
Definition format_short (ds : string) (decpt : Z) : string :=
  let n := Z.of_nat (String.length ds) in
  if (decpt <? -3) || (16 <? decpt) then
    let mant := match ds with
                | String c "" => ds
                | String c rest => String c ("." ++ rest)
                | "" => ""
                end in
    let ex := decpt - 1 in
    mant ++ "e" ++ (if ex <? 0 then "-" else "+") ++ pad2 (decimal (Z.abs ex))
  else if decpt <=? 0 then "0." ++ zeros (Z.to_nat (- decpt)) ++ ds
  else if n <=? decpt then ds ++ zeros (Z.to_nat (decpt - n)) ++ ".0"
  else substring 0 (Z.to_nat decpt) ds ++ "." ++
       substring (Z.to_nat decpt) (Z.to_nat (n - decpt)) ds.

Definition signed (s : bool) (body : string) : string :=
  if s then "-" ++ body else body.

(** [float.__repr__] *)
Definition repr (f : float) : string :=
  match f with
  | S754_zero s => signed s "0.0"
  | S754_infinity s => signed s "inf"
  | S754_nan => "nan"
  | S754_finite s m e => let '(ds, decpt) := digits m e in signed s (format_short ds decpt)
  end.

End PyFloat.

(* ===================================================================== *)
(** * Reading numerals: the grammar shared by [int(str)] and [float(str)] *)
(* ===================================================================== *)

Module Numeral.

(** White space that [int] and [float] strip at both ends: the ASCII
    space characters, and U+0085 and U+00A0. *)
Definition is_space (c : ascii) : bool :=
  let n := code c in
  ((9 <=? n) && (n <=? 13)) || (n =? 32) || (n =? 133) || (n =? 160).

Fixpoint lstrip (s : string) : string :=
  match s with
  | String c rest => if is_space c then lstrip rest else s
  | "" => ""
  end.

Fixpoint rev_string (s acc : string) : string :=
  match s with
  | String c rest => rev_string rest (String c acc)
  | "" => acc
  end.

Definition strip (s : string) : string :=
  rev_string (lstrip (rev_string (lstrip s) "")) "".

(** An underscore is allowed only between two digits; [prev] is the
    character before. *)
Fixpoint drop_underscores (prev : ascii) (s : string) : option string :=
  match s with
  | "" => if Ascii.eqb prev "_" then None else Some ""
  | String c rest =>
      if Ascii.eqb c "_" then
        if is_digit prev then drop_underscores c rest else None
      else if Ascii.eqb prev "_" && negb (is_digit c) then None
      else option_map (String c) (drop_underscores c rest)
  end.

(** Reads a run of digits: the value accumulated on [acc], how many digits
    were read, and what follows. *)
Fixpoint read_digits (s : string) (acc : Z) (cnt : Z) : Z * Z * string :=
  match s with
  | String c rest =>
      if is_digit c then read_digits rest (10 * acc + (code c - 48)) (cnt + 1)
      else (acc, cnt, s)
  | "" => (acc, cnt, "")
  end.

(** An optional sign: [true] for a minus. *)
Definition read_sign (s : string) : bool * string :=
  match s with
  | String "-" rest => (true, rest)
  | String "+" rest => (false, rest)
  | _ => (false, s)
  end.

Definition lower (c : ascii) : ascii :=
  if (65 <=? code c) && (code c <=? 90) then chr (code c + 32) else c.

Fixpoint lower_string (s : string) : string :=
  match s with
  | String c rest => String (lower c) (lower_string rest)
  | "" => ""
  end.

(** [sys.get_int_max_str_digits()]: a decimal numeral with more digits is
    not converted to an [int], nor an [int] that long to a [str]. *)
Definition int_max_str_digits : Z := 4300.

(** [int(s)] in base 10; [None] is ValueError. Leading zeros count as
    digits, underscores and the sign do not. *)
Definition int_of_string (s : string) : option Z :=
  match drop_underscores "000" s with
  | None => None
  | Some s1 =>
      let '(neg, s2) := read_sign (strip s1) in
      match read_digits s2 0 0 with
      | (v, cnt, "") =>
          if (0 <? cnt) && (cnt <=? int_max_str_digits)
          then Some (if neg then - v else v) else None
      | _ => None
      end
  end.

(** The float nearest to [d * 10^e]. With [nd] the number of digits of
    [d], [10^(nd - 1 + e) <= d * 10^e < 10^(nd + e)]: beyond [10^400] the
    result is an infinity, below [10^-400] a zero. *)
Definition float_of_decimal (neg : bool) (d e : Z) : PyFloat.float :=
  let nd := Z.of_nat (String.length (decimal d)) in
  match d with
  | Zpos p =>
      if 400 <? nd + e then S754_infinity neg
      else if nd + e <? -400 then S754_zero neg
      else if 0 <=? e then binary_round PyFloat.prec PyFloat.emax neg (Pos.mul p (Z.to_pos (10 ^ e))) 0
      else
        let '(q, e', l) := SFdiv_core_binary PyFloat.prec PyFloat.emax d 0 (10 ^ (- e)) 0 in
        binary_round_aux PyFloat.prec PyFloat.emax neg q e' l
  | _ => S754_zero neg
  end.

Definition read_exponent (s : string) : option Z :=
  match s with
  | "" => Some 0
  | String c rest =>
      if Ascii.eqb (lower c) "e" then
        let '(neg, r) := read_sign rest in
        match read_digits r 0 0 with
        | (v, cnt, "") => if 0 <? cnt then Some (if neg then - v else v) else None
        | _ => None
        end
      else None
  end.

(** [float(s)]; [None] is ValueError. *)
Definition float_of_string (s : string) : option PyFloat.float :=
  match drop_underscores "000" s with
  | None => None
  | Some s1 =>
      let '(neg, s2) := read_sign (strip s1) in
      let word := lower_string s2 in
      if String.eqb word "inf" || String.eqb word "infinity" then Some (S754_infinity neg)
      else if String.eqb word "nan" then Some S754_nan
      else
        let '(ip, ic, r1) := read_digits s2 0 0 in
        let '(d, fc, r2) :=
          match r1 with
          | String "." r => read_digits r ip 0
          | _ => (ip, 0, r1)
          end in
        if 0 <? ic + fc then
          match read_exponent r2 with
          | Some ex => Some (float_of_decimal neg d (ex - fc))
          | None => None
          end
        else None
  end.

End Numeral.

(* ===================================================================== *)
(** * Python values of JSON shape, and the builtins applied to them       *)
(* ===================================================================== *)

Module Py.

(** What [json.loads] returns. A [dict] keeps its keys in insertion order;
    its keys are distinct. *)
Inductive value :=
| VNone
| VBool (b : bool)
| VInt (n : Z)
| VFloat (x : PyFloat.float)
| VStr (s : string)
| VList (items : list value)
| VDict (fields : list (string * value)).

Abbreviation dict := (list (string * value)).

(** The exceptions the ledger code can meet. [RuntimeError] is only raised
    by [load_ledger], with one of two messages; every one of them is an
    instance of [Exception]. [JSONDecodeError] and [UnicodeDecodeError]
    are subclasses of [ValueError]; [ValueError] below is the class
    itself. *)
Inductive malformed := NotAList | NotValidJson.
Inductive exn :=
| RuntimeError (why : malformed)
| TypeError
| ValueError
| OverflowError
| KeyError (key : string)
| JSONDecodeError
| UnicodeDecodeError
| RecursionError
| FileNotFoundError.

Inductive result (A : Type) :=
| Ok (a : A)
| Raise (e : exn).
Arguments Ok {A} a.
Arguments Raise {A} e.

(** ** Dictionaries *)

(** [key in d] and [d[key]] *)
Fixpoint dict_get (key : string) (d : dict) : option value :=
  match d with
  | [] => None
  | (k, v) :: rest => if String.eqb k key then Some v else dict_get key rest
  end.

Definition dict_has (key : string) (d : dict) : bool :=
  match dict_get key d with Some _ => true | None => false end.

(** [d[key] = v]: an existing key keeps its place, a new one goes last. *)
Fixpoint dict_set (key : string) (v : value) (d : dict) : dict :=
  match d with
  | [] => [(key, v)]
  | (k, v0) :: rest =>
      if String.eqb k key then (k, v) :: rest else (k, v0) :: dict_set key v rest
  end.

(** [d.get(key, dflt)] and [d.get(key)] *)
Definition get_or (d : dict) (key : string) (dflt : value) : value :=
  match dict_get key d with Some v => v | None => dflt end.
Definition get (d : dict) (key : string) : value := get_or d key VNone.

(** [d[key]], raising KeyError *)
Definition item (d : dict) (key : string) : result value :=
  match dict_get key d with Some v => Ok v | None => Raise (KeyError key) end.

Definition is_none (v : value) : bool :=
  match v with VNone => true | _ => false end.

(** ** Truth value, [a or b] *)
Definition truthy (v : value) : bool :=
  match v with
  | VNone => false
  | VBool b => b
  | VInt n => negb (n =? 0)
  | VFloat x => negb (PyFloat.is_zero x)
  | VStr s => negb (String.eqb s "")
  | VList l => match l with [] => false | _ => true end
  | VDict d => match d with [] => false | _ => true end
  end.

Definition py_or (a b : value) : value := if truthy a then a else b.

(** ** [repr] and [str] *)

Definition dquote : ascii := "034".

Definition hex_digit (x : Z) : ascii := chr (if x <? 10 then 48 + x else 87 + x).
Definition hex2 (n : Z) : string :=
  String (hex_digit (n / 16)) (String (hex_digit (n mod 16)) "").

Fixpoint contains (c : ascii) (s : string) : bool :=
  match s with
  | "" => false
  | String c' rest => Ascii.eqb c c' || contains c rest
  end.

(** Printable code points below U+0100, as [str.isprintable] has them. *)
Definition printable (n : Z) : bool :=
  ((32 <=? n) && (n <? 127)) || ((161 <=? n) && negb (n =? 173)).

Definition repr_char (quote c : ascii) : string :=
  let n := code c in
  if Ascii.eqb c quote || (n =? 92) then String "\" (String c "")
  else if n =? 9 then "\t"
  else if n =? 10 then "\n"
  else if n =? 13 then "\r"
  else if printable n then String c ""
  else "\x" ++ hex2 n.

Fixpoint repr_chars (quote : ascii) (s : string) : string :=
  match s with
  | "" => ""
  | String c rest => repr_char quote c ++ repr_chars quote rest
  end.

Definition str_repr (s : string) : string :=
  let quote : ascii := if contains "'" s && negb (contains dquote s) then dquote else "'"%char in
  String quote (repr_chars quote s ++ String quote "").

Fixpoint join (sep : string) (parts : list string) : string :=
  match parts with
  | [] => ""
  | [p] => p
  | p :: rest => p ++ sep ++ join sep rest
  end.

Fixpoint repr (v : value) : string :=
  match v with
  | VNone => "None"
  | VBool b => if b then "True" else "False"
  | VInt n => int_repr n
  | VFloat x => PyFloat.repr x
  | VStr s => str_repr s
  | VList l => "[" ++ join ", " (map repr l) ++ "]"
  | VDict d => "{" ++ join ", " (map (fun kv => str_repr (fst kv) ++ ": " ++ repr (snd kv)) d) ++ "}"
  end.

(** [str(v)] *)
Definition str (v : value) : string :=
  match v with VStr s => s | _ => repr v end.

(** ** [int(v)] and [float(v)] *)

Definition int (v : value) : result Z :=
  match v with
  | VBool b => Ok (if b then 1 else 0)
  | VInt n => Ok n
  | VFloat x =>
      match x with
      | S754_zero _ => Ok 0
      | S754_finite s m e => Ok (PyFloat.trunc s m e)
      | S754_infinity _ => Raise OverflowError
      | S754_nan => Raise ValueError
      end
  | VStr s => match Numeral.int_of_string s with Some n => Ok n | None => Raise ValueError end
  | VNone | VList _ | VDict _ => Raise TypeError
  end.

Definition float_of_int (n : Z) : result PyFloat.float :=
  match PyFloat.of_Z n with Some x => Ok x | None => Raise OverflowError end.

Definition float (v : value) : result PyFloat.float :=
  match v with
  | VBool b => float_of_int (if b then 1 else 0)
  | VInt n => float_of_int n
  | VFloat x => Ok x
  | VStr s => match Numeral.float_of_string s with Some x => Ok x | None => Raise ValueError end
  | VNone | VList _ | VDict _ => Raise TypeError
  end.

(** ** [v == n] for an int [n], [v == s] for a str [s] *)

Definition eq_int (v : value) (n : Z) : bool :=
  match v with
  | VBool b => (if b then 1 else 0) =? n
  | VInt m => m =? n
  | VFloat x => PyFloat.eq_Z x n
  | _ => false
  end.

Definition eq_str (v : value) (s : string) : bool :=
  match v with
  | VStr t => String.eqb t s
  | _ => false
  end.

(** ** [json.dumps(v, sort_keys=True)] and [str.encode()] *)

Definition hex4 (n : Z) : string := hex2 (n / 256) ++ hex2 (n mod 256).

(** [ensure_ascii] escaping of one character. *)
Definition json_char (c : ascii) : string :=
  let n := code c in
  if n =? 34 then String "\" (String dquote "")
  else if n =? 92 then "\\"
  else if n =? 10 then "\n"
  else if n =? 13 then "\r"
  else if n =? 9 then "\t"
  else if n =? 12 then "\f"
  else if n =? 8 then "\b"
  else if (32 <=? n) && (n <? 127) then String c ""
  else "\u" ++ hex4 n.

Fixpoint json_chars (s : string) : string :=
  match s with
  | "" => ""
  | String c rest => json_char c ++ json_chars rest
  end.

Definition json_str (s : string) : string :=
  String dquote (json_chars s ++ String dquote "").

Definition json_float (x : PyFloat.float) : string :=
  match x with
  | S754_nan => "NaN"
  | S754_infinity s => if s then "-Infinity" else "Infinity"
  | _ => PyFloat.repr x
  end.

(** Keys in increasing order of their code points. *)
Fixpoint insert_sorted (kv : string * string) (l : list (string * string)) :=
  match l with
  | [] => [kv]
  | kv' :: rest =>
      if String.leb (fst kv) (fst kv') then kv :: l else kv' :: insert_sorted kv rest
  end.

Definition sort_items (l : list (string * string)) : list (string * string) :=
  fold_right insert_sorted [] l.

Fixpoint json_dumps (v : value) : string :=
  match v with
  | VNone => "null"
  | VBool b => if b then "true" else "false"
  | VInt n => int_repr n
  | VFloat x => json_float x
  | VStr s => json_str s
  | VList l => "[" ++ join ", " (map json_dumps l) ++ "]"
  | VDict d =>
      let items := sort_items (map (fun kv => (fst kv, json_dumps (snd kv))) d) in
      "{" ++ join ", " (map (fun kv => json_str (fst kv) ++ ": " ++ snd kv) items) ++ "}"
  end.

(** UTF-8 *)
Fixpoint encode (s : string) : list Z :=
  match s with
  | "" => []
  | String c rest =>
      let n := code c in
      if n <? 128 then n :: encode rest
      else Z.lor 0xc0 (Z.shiftr n 6) :: Z.lor 0x80 (Z.land n 0x3f) :: encode rest
  end.

End Py.

(* ===================================================================== *)
(** * The ledger: src/veil/ledger.py                                      *)
(* ===================================================================== *)

Module Ledger.
Import Py.

Definition LEDGER_PATH : string := "/opt/veil_os/ledger.json".
Definition LEGACY_QUARANTINE_PATH : string := "/opt/veil_os/ledger_legacy.json".

(** [path.with_suffix(path.suffix + ext)] *)
Definition with_suffix (path ext : string) : string := path ++ ext.

(** ** The world: regular files and standard output *)

(** Directories are not modelled: the [mkdir] of [_atomic_write_text] has
    no counterpart here. *)

(** The text of a file, seen through [json.loads]: either a text that
    [json.loads] rejects with [JSONDecodeError], or the text of the JSON
    document [doc]. [json.dumps] of [doc] writes a text that [json.loads]
    reads back as [doc]. The store of this module holds texts only, read
    and written within the limits of the [json] module; files whose bytes
    do not decode and texts that run into a limit are in [Disk]. *)
Inductive file :=
| NotJson (raw : string)
| JsonText (doc : value).

(** One constructor per [print] of the module. *)
Inductive message :=
| Recorded (organ_name : string) (index : nat)
| LedgerEmpty
| NoVerifiableBlocks
| SkippingLegacy (start : nat)
| NotAnObject (i : nat)
| MissingMappedFields (i : nat)
| BadTimestamp (i : nat)
| BrokenChain (i : nat)
| TamperingDetected (i : nat)
| MissingHashStrict (i : nat)
| IntegrityVerified
| NothingToMigrate
| BackupWritten (bak : string)
| Quarantined (n : nat)
| NoMigratableBlocks
| MigrationComplete (n : nat).

Record world := World { files : gmap string file; stdout : list message }.

(** ** Exceptions and state *)

Definition M (A : Type) : Type := world -> result A * world.

Definition ret {A} (a : A) : M A := fun w => (Ok a, w).
Definition raise {A} (e : exn) : M A := fun w => (Raise e, w).
Definition bind {A B} (m : M A) (k : A -> M B) : M B :=
  fun w => match m w with
           | (Ok a, w') => k a w'
           | (Raise e, w') => (Raise e, w')
           end.

(** [try: m  except <the exceptions h accepts>: h e] *)
Definition try_except {A} (m : M A) (h : exn -> option (M A)) : M A :=
  fun w => match m w with
           | (Ok a, w') => (Ok a, w')
           | (Raise e, w') => match h e with Some k => k w' | None => (Raise e, w') end
           end.

Definition lift {A} (r : result A) : M A := fun w => (r, w).

Declare Scope ledger_scope.
Delimit Scope ledger_scope with ledger.
Notation "x <- m ;; k" := (bind m (fun x => k))
  (at level 100, m at next level, right associativity) : ledger_scope.
Notation "m ;; k" := (bind m (fun _ => k))
  (at level 100, right associativity) : ledger_scope.
Notation "'let*' x := r 'in' k" :=
  (match r with Ok x => k | Raise e => Raise e end)
  (at level 100, x name, r at next level, right associativity) : ledger_scope.
Notation "'let*' ' p := r 'in' k" :=
  (match r with Ok p => k | Raise e => Raise e end)
  (at level 100, p pattern, r at next level, right associativity) : ledger_scope.
Local Open Scope ledger_scope.

Definition print (m : message) : M unit :=
  fun w => (Ok tt, World (files w) (stdout w ++ [m])).

Definition path_exists (path : string) : M bool :=
  fun w => (Ok (bool_decide (is_Some (files w !! path))), w).

Definition read_text (path : string) : M file :=
  fun w => match files w !! path with
           | Some f => (Ok f, w)
           | None => (Raise FileNotFoundError, w)
           end.

Definition write_text (path : string) (text : file) : M unit :=
  fun w => (Ok tt, World (<[path := text]> (files w)) (stdout w)).

(** [src.replace(dst)]: rename over the destination. *)
Definition replace (src dst : string) : M unit :=
  fun w => match files w !! src with
           | Some f => (Ok tt, World (delete src (<[dst := f]> (files w))) (stdout w))
           | None => (Raise FileNotFoundError, w)
           end.

Definition json_loads (text : file) : M value :=
  match text with
  | JsonText doc => ret doc
  | NotJson _ => raise JSONDecodeError
  end.

(** ** Canonical hashing *)

Definition _canonical_block_for_hash
    (index : Z) (organ tier : string) (timestamp : PyFloat.float) (prev_hash : string) : dict :=
  [ ("index", VInt index);
    ("organ", VStr organ);
    ("tier", VStr tier);
    ("timestamp", VFloat timestamp);
    ("prev_hash", VStr prev_hash) ].

Definition hash_block (block : dict) : string :=
  Sha256.hexdigest (encode (json_dumps (VDict block))).

(** ** IO helpers *)

Definition load_ledger : M (list value) :=
  present <- path_exists LEDGER_PATH ;;
  if present then
    try_except
      (text <- read_text LEDGER_PATH ;;
       data <- json_loads text ;;
       match data with
       | VList l => ret l
       | _ => raise (RuntimeError NotAList)
       end)
      (fun e => match e with
                | JSONDecodeError => Some (raise (RuntimeError NotValidJson))
                | _ => None
                end)
  else ret [].

Definition _atomic_write_text (path : string) (text : file) : M unit :=
  let tmp := with_suffix path ".tmp" in
  write_text tmp text ;;
  replace tmp path.

Definition save_ledger (ledger : list value) : M unit :=
  _atomic_write_text LEDGER_PATH (JsonText (VList ledger)).

Definition _load_json_list (path : string) : M (list value) :=
  present <- path_exists path ;;
  if present then
    try_except
      (text <- read_text path ;;
       data <- json_loads text ;;
       match data with
       | VList l => ret l
       | _ => ret []
       end)
      (fun e => match e with
                | JSONDecodeError => Some (ret [])
                | _ => None
                end)
  else ret [].

Definition _save_json_list (path : string) (items : list value) : M unit :=
  _atomic_write_text path (JsonText (VList items)).

(** ** Legacy mapping *)

Definition str_if_not_none (v : value) : option string :=
  if is_none v then None else Some (str v).

Definition _map_legacy_fields (block : dict) : option string * option string :=
  let organ := get block "organ" in
  let organ :=
    if is_none organ
    then py_or (py_or (py_or (get block "name") (get block "organ_name"))
                      (get block "service")) (get block "module")
    else organ in
  let tier := get block "tier" in
  let tier :=
    if is_none tier
    then py_or (py_or (py_or (get block "priority") (get block "level"))
                      (get block "tier_name")) (get block "class")
    else tier in
  (str_if_not_none organ, str_if_not_none tier).

Definition _has_minimum_fields_for_hash (block : dict) : bool :=
  let '(organ, tier) := _map_legacy_fields block in
  bool_decide (is_Some organ) && bool_decide (is_Some tier)
  && dict_has "timestamp" block && dict_has "prev_hash" block.

(** ** Public API *)

(** The clock: [now] is what [time.time()] returns in this call. *)

(** Lines 143-165 of [append_ledger_entry]: the hash the new block points
    back to, from the last record of the active ledger. *)
Definition resolve_prev_hash (ledger : list value) : string :=
  match last ledger with
  | None => "GENESIS"
  | Some (VDict last) =>
      if truthy (get last "hash") then str (get last "hash")
      else
        let '(organ, t) := _map_legacy_fields last in
        match
          (let* idx := int (get_or last "index" (VInt (Z.of_nat (length ledger) - 1))) in
           let* v := item last "timestamp" in
           let* ts := float v in
           let ph := str (get_or last "prev_hash" (VStr "GENESIS")) in
           Ok match organ, t with
              | Some organ, Some t =>
                  hash_block (_canonical_block_for_hash idx organ t ts ph)
              | _, _ => "GENESIS"
              end)
        with
        | Ok prev_hash => prev_hash
        | Raise _ => "GENESIS"
        end
  | Some _ => "GENESIS"
  end.

Definition append_ledger_entry (organ_name tier : string) (now : PyFloat.float) : M unit :=
  ledger <- load_ledger ;;
  let prev_hash := resolve_prev_hash ledger in
  let index := length ledger in
  let timestamp := now in
  let canonical :=
    _canonical_block_for_hash (Z.of_nat index) organ_name tier timestamp prev_hash in
  let block := dict_set "hash" (VStr (hash_block canonical)) canonical in
  let ledger := (ledger ++ [VDict block])%list in
  save_ledger ledger ;;
  print (Recorded organ_name index).

(** Lines 209-219 of [verify_ledger]: the position of the first record
    whose organ, tier and timestamp resolve; [None] is the [else] of the
    [for]. *)
Fixpoint first_verifiable (i : nat) (ledger : list value) : option nat :=
  match ledger with
  | [] => None
  | VDict block :: rest =>
      match _map_legacy_fields block with
      | (Some _, Some _) =>
          if dict_has "timestamp" block then Some i else first_verifiable (S i) rest
      | _ => first_verifiable (S i) rest
      end
  | _ :: rest => first_verifiable (S i) rest
  end.

(** One turn of the loop of lines 226-274 on the record at position [i]:
    [Some h] goes on with [prev_expected_hash = h], [None] is
    [return False]. *)
Definition verify_block (strict_hash : bool) (start i : nat)
    (prev_expected_hash : option string) (block : value) : M (option string) :=
  match block with
  | VDict block =>
      idx <- lift (int (get_or block "index" (VInt (Z.of_nat i)))) ;;
      match _map_legacy_fields block with
      | (Some organ, Some tier) =>
          match (let* v := item block "timestamp" in float v) with
          | Raise _ => print (BadTimestamp i) ;; ret None
          | Ok ts =>
              let prev_hash :=
                if Nat.eqb i start then str (get_or block "prev_hash" (VStr "GENESIS"))
                else str (get_or block "prev_hash" (VStr "")) in
              if negb (Nat.eqb i start)
                 && match prev_expected_hash with
                    | None => true
                    | Some h => negb (String.eqb prev_hash h)
                    end
              then print (BrokenChain i) ;; ret None
              else
                let canonical := _canonical_block_for_hash idx organ tier ts prev_hash in
                let expected_hash := hash_block canonical in
                let stored_hash := get block "hash" in
                if negb (is_none stored_hash) then
                  if negb (String.eqb (str stored_hash) expected_hash)
                  then print (TamperingDetected i) ;; ret None
                  else ret (Some expected_hash)
                else
                  if strict_hash
                  then print (MissingHashStrict i) ;; ret None
                  else ret (Some expected_hash)
          end
      | _ => print (MissingMappedFields i) ;; ret None
      end
  | _ => print (NotAnObject i) ;; ret None
  end.

(** [for i in range(i, len(ledger))], over the records from position [i]. *)
Fixpoint verify_from (strict_hash : bool) (start i : nat)
    (prev_expected_hash : option string) (blocks : list value) : M bool :=
  match blocks with
  | [] => ret true
  | block :: rest =>
      r <- verify_block strict_hash start i prev_expected_hash block ;;
      match r with
      | None => ret false
      | Some h => verify_from strict_hash start (S i) (Some h) rest
      end
  end.

Definition verify_ledger (strict_hash allow_legacy_prefix : bool) : M bool :=
  ledger <- load_ledger ;;
  match ledger with
  | [] => print LedgerEmpty ;; ret true
  | _ =>
      let scan :=
        if allow_legacy_prefix then first_verifiable 0 ledger else Some 0%nat in
      match scan with
      | None => print NoVerifiableBlocks ;; ret false
      | Some start =>
          (if allow_legacy_prefix && (0 <? start)%nat
           then print (SkippingLegacy start) else ret tt) ;;
          ok <- verify_from strict_hash start start None (drop start ledger) ;;
          if ok then print IntegrityVerified ;; ret true else ret false
      end
  end.

(** First pass of [migrate_ledger_in_place], lines 311-324: the records to
    quarantine and the candidates, each list in the original order. *)
Fixpoint split_blocks (i : nat) (ledger : list value) : list value * list dict :=
  match ledger with
  | [] => ([], [])
  | block :: rest =>
      let '(quarantined, cleaned) := split_blocks (S i) rest in
      match block with
      | VDict block =>
          let '(organ, tier) := _map_legacy_fields block in
          if negb (bool_decide (is_Some organ)) || negb (bool_decide (is_Some tier))
             || negb (dict_has "timestamp" block)
          then
            let b := dict_set "_reason" (VStr "missing organ/tier/timestamp") block in
            let b := dict_set "_original_index" (VInt (Z.of_nat i)) b in
            (VDict b :: quarantined, cleaned)
          else (quarantined, block :: cleaned)
      | _ =>
          (VDict [ ("_reason", VStr "non-dict block");
                   ("_original_index", VInt (Z.of_nat i));
                   ("value", block) ] :: quarantined, cleaned)
      end
  end.

(** [str(organ)] for the optional string [_map_legacy_fields] returns. *)
Definition str_opt (o : option string) : string :=
  match o with Some s => s | None => "None" end.

(** Second pass, lines 341-368: the new chain and the count of modified
    records, from position [new_index] with [prev_hash] the hash of the
    block before. *)
Fixpoint rewrite_chain (new_index : nat) (prev_hash : string) (cleaned : list dict)
    : result (list value * nat) :=
  match cleaned with
  | [] => Ok ([], 0%nat)
  | old_block :: rest =>
      let '(organ, tier) := _map_legacy_fields old_block in
      let* v := item old_block "timestamp" in
      let* ts := float v in
      let canonical :=
        _canonical_block_for_hash (Z.of_nat new_index) (str_opt organ) (str_opt tier)
                                  ts prev_hash in
      let expected_hash := hash_block canonical in
      let new_block := dict_set "hash" (VStr expected_hash) canonical in
      let changed :=
        negb (eq_int (get old_block "index") (Z.of_nat new_index))
        || negb (eq_str (get old_block "prev_hash") prev_hash)
        || negb (eq_str (get old_block "hash") expected_hash)
        || negb (eq_str (get old_block "organ") (str_opt organ))
        || negb (eq_str (get old_block "tier") (str_opt tier)) in
      let* '(new_ledger, modified) := rewrite_chain (S new_index) expected_hash rest in
      Ok (VDict new_block :: new_ledger, ((if changed then 1 else 0) + modified)%nat)
  end.

Definition migrate_ledger_in_place (backup : bool) : M (nat * nat * nat) :=
  ledger <- load_ledger ;;
  match ledger with
  | [] => print NothingToMigrate ;; ret (0, 0, 0)%nat
  | _ =>
      present <- path_exists LEDGER_PATH ;;
      (if backup && present then
         let bak := with_suffix LEDGER_PATH ".bak" in
         text <- read_text LEDGER_PATH ;;
         _atomic_write_text bak text ;;
         print (BackupWritten bak)
       else ret tt) ;;
      let '(quarantined, cleaned) := split_blocks 0 ledger in
      (match quarantined with
       | [] => ret tt
       | _ =>
           existing <- _load_json_list LEGACY_QUARANTINE_PATH ;;
           let existing := (existing ++ quarantined)%list in
           _save_json_list LEGACY_QUARANTINE_PATH existing ;;
           print (Quarantined (length quarantined))
       end) ;;
      match cleaned with
      | [] =>
          print NoMigratableBlocks ;;
          ret (0%nat, length quarantined, length ledger)
      | _ =>
          rewritten <- lift (rewrite_chain 0 "GENESIS" cleaned) ;;
          let '(new_ledger, modified) := rewritten in
          save_ledger new_ledger ;;
          print (MigrationComplete (length new_ledger)) ;;
          ret (modified, length quarantined, length ledger)
      end
  end.

End Ledger.

(* ===================================================================== *)
(** * The store as bytes: the reads of lines 53-62 and 76-84             *)
(* ===================================================================== *)

(** [Path.read_text] and [json.loads] fail in more ways than [Ledger]
    shows: the bytes of a file may not decode, and [json.loads] gives up
    with an exception that is not [JSONDecodeError] when it meets an
    integer literal of more than 4300 digits, or nesting deeper than the
    recursion limit still allows. Neither is caught by the
    [except json.JSONDecodeError] of the two loaders. *)

Module Disk.
Import Py Ledger.
Local Open Scope ledger_scope.

Inductive limit := IntDigits | Nesting.

Definition limit_error (which : limit) : exn :=
  match which with
  | IntDigits => ValueError
  | Nesting => RecursionError
  end.

(** A decoded text: one of [Ledger], or one in which the scanner runs
    into a limit before it reaches the end or a syntax error. *)
Inductive text :=
| Plain (f : file)
| Overruns (which : limit).

Inductive bytes :=
| Undecodable
| Utf8 (t : text).

Definition disk : Type := gmap string bytes.

Definition too_long (n : Z) : bool := 10 ^ Numeral.int_max_str_digits <=? Z.abs n.

(** The first limit the scanner meets in the text of [doc], read from
    left to right, when [depth_left] more nested arrays and objects are
    allowed: an array or object is entered before its members are read,
    an integer is converted where it stands. *)
Fixpoint scan (depth_left : nat) (doc : value) {struct doc} : option limit :=
  match doc with
  | VInt n => if too_long n then Some IntDigits else None
  | VList items =>
      match depth_left with
      | O => Some Nesting
      | S depth =>
          (fix members (l : list value) : option limit :=
             match l with
             | [] => None
             | v :: rest =>
                 match scan depth v with
                 | Some which => Some which
                 | None => members rest
                 end
             end) items
      end
  | VDict fields =>
      match depth_left with
      | O => Some Nesting
      | S depth =>
          (fix members (l : list (string * value)) : option limit :=
             match l with
             | [] => None
             | (_, v) :: rest =>
                 match scan depth v with
                 | Some which => Some which
                 | None => members rest
                 end
             end) fields
      end
  | VNone | VBool _ | VFloat _ | VStr _ => None
  end.

Definition path_exists (path : string) (d : disk) : bool :=
  bool_decide (is_Some (d !! path)).

Definition read_text (path : string) (d : disk) : result text :=
  match d !! path with
  | Some (Utf8 t) => Ok t
  | Some Undecodable => Raise UnicodeDecodeError
  | None => Raise FileNotFoundError
  end.

Definition json_loads (depth_left : nat) (t : text) : result value :=
  match t with
  | Plain (JsonText doc) =>
      match scan depth_left doc with
      | Some which => Raise (limit_error which)
      | None => Ok doc
      end
  | Plain (NotJson _) => Raise JSONDecodeError
  | Overruns which => Raise (limit_error which)
  end.

(** [try: r  except <the exceptions h accepts>: h e] *)
Definition try_except {A} (r : result A) (h : exn -> option (result A)) : result A :=
  match r with
  | Ok a => Ok a
  | Raise e => match h e with Some k => k | None => Raise e end
  end.

(** [depth_left] is what the interpreter's recursion limit leaves to
    [json.loads] in this call. *)
Definition load_ledger (depth_left : nat) (d : disk) : result (list value) :=
  if path_exists LEDGER_PATH d then
    try_except
      (let* text := read_text LEDGER_PATH d in
       let* data := json_loads depth_left text in
       match data with
       | VList l => Ok l
       | _ => Raise (RuntimeError NotAList)
       end)
      (fun e => match e with
                | JSONDecodeError => Some (Raise (RuntimeError NotValidJson))
                | _ => None
                end)
  else Ok [].

Definition _load_json_list (depth_left : nat) (path : string) (d : disk)
    : result (list value) :=
  if path_exists path d then
    try_except
      (let* text := read_text path d in
       let* data := json_loads depth_left text in
       match data with
       | VList l => Ok l
       | _ => Ok []
       end)
      (fun e => match e with
                | JSONDecodeError => Some (Ok [])
                | _ => None
                end)
  else Ok [].

End Disk.

(* ===================================================================== *)
(** * Vocabulary of the properties                                        *)
(* ===================================================================== *)

Import Py Ledger.
Local Open Scope ledger_scope.
Local Open Scope list_scope.

Arguments hash_block : simpl never.
Arguments LEDGER_PATH : simpl never.
Arguments LEGACY_QUARANTINE_PATH : simpl never.

(** The files after [_atomic_write_text path text]: the destination holds
    [text] and the temporary file is gone. *)
Definition written (path : string) (text : file) (fs : gmap string file)
    : gmap string file :=
  delete (with_suffix path ".tmp") (<[path := text]> fs).

(** The world whose active ledger is the chain [l]. *)
Definition with_ledger (l : list value) (w : world) : world :=
  World (<[LEDGER_PATH := JsonText (VList l)]> (files w)) (stdout w).

(** The block [append_ledger_entry] builds at position [index]. *)
Definition appended_block (index : nat) (organ tier : string)
    (now : PyFloat.float) (prev_hash : string) : dict :=
  [ ("index", VInt (Z.of_nat index));
    ("organ", VStr organ);
    ("tier", VStr tier);
    ("timestamp", VFloat now);
    ("prev_hash", VStr prev_hash);
    ("hash", VStr (hash_block
       (_canonical_block_for_hash (Z.of_nat index) organ tier now prev_hash))) ].

(** A subject, a category and the reading of the clock at that call. *)
Definition entry : Type := string * string * PyFloat.float.

(** One call of [append_ledger_entry] after the other. *)
Fixpoint run_appends (entries : list entry) : M unit :=
  match entries with
  | [] => ret tt
  | (organ_name, tier, now) :: rest =>
      append_ledger_entry organ_name tier now ;; run_appends rest
  end.

(** The chain that appending [entries] builds from position [i] on, chained
    to [prev], and the hash its last block carries. *)
Fixpoint chain_of (i : nat) (prev : string) (entries : list entry) : list value :=
  match entries with
  | [] => []
  | (organ, tier, now) :: rest =>
      VDict (appended_block i organ tier now prev)
      :: chain_of (S i)
           (hash_block (_canonical_block_for_hash (Z.of_nat i) organ tier now prev)) rest
  end.

Fixpoint chain_tip (i : nat) (prev : string) (entries : list entry) : string :=
  match entries with
  | [] => prev
  | (organ, tier, now) :: rest =>
      chain_tip (S i)
        (hash_block (_canonical_block_for_hash (Z.of_nat i) organ tier now prev)) rest
  end.

(** The ledger file is absent, or holds the empty list. *)
Definition no_ledger_yet (w : world) : bool :=
  match files w !! LEDGER_PATH with
  | None => true
  | Some (JsonText (VList [])) => true
  | _ => false
  end.



(** The minimum-fields test, the one of the first pass of migration and
    of the scan for the first verifiable record: the record is an object
    whose organ and tier resolve and that has a timestamp. *)
Definition resolves (block : value) : bool :=
  match block with
  | VDict d =>
      match _map_legacy_fields d with
      | (Some _, Some _) => dict_has "timestamp" d
      | _ => false
      end
  | _ => false
  end.

(** The entries a quarantine file holds: the records of its list, none
    when the file is absent or does not hold a JSON list. *)
Definition entries_of (f : option file) : list value :=
  match f with
  | Some (JsonText (VList l)) => l
  | _ => []
  end.

(** The records that a run of migrate on [w] puts in quarantine. *)
Definition newly_quarantined (w : world) : list value :=
  match fst (load_ledger w) with
  | Ok l => fst (split_blocks 0 l)
  | Raise _ => []
  end.

(** An already canonical chain, from position [i] on and chained to
    [prev]: every record is an object with the integer index of its
    position, [organ] and [tier] strings, a timestamp that reads as a
    number, the [prev_hash] of the chain and the hash of these fields. *)
Fixpoint canonical_chain (i : nat) (prev : string) (l : list value) : bool :=
  match l with
  | [] => true
  | VDict d :: rest =>
      match dict_get "index" d, dict_get "organ" d, dict_get "tier" d,
            dict_get "timestamp" d, dict_get "prev_hash" d, dict_get "hash" d with
      | Some (VInt n), Some (VStr organ), Some (VStr tier),
        Some stamp, Some (VStr p), Some (VStr h) =>
          match float stamp with
          | Ok ts =>
              (n =? Z.of_nat i) && String.eqb p prev
              && String.eqb h (hash_block (_canonical_block_for_hash n organ tier ts p))
              && canonical_chain (S i) h rest
          | Raise _ => false
          end
      | _, _, _, _, _, _ => false
      end
  | _ :: _ => false
  end.

(** The world after the backup step of migrate, and after its quarantine
    step for the quarantined records [q]. *)
Definition after_backup (backup : bool) (w : world) : world :=
  match files w !! LEDGER_PATH with
  | Some text =>
      if backup
      then World (written (with_suffix LEDGER_PATH ".bak") text (files w))
                 (stdout w ++ [BackupWritten (with_suffix LEDGER_PATH ".bak")])
      else w
  | None => w
  end.

Definition after_quarantine (q : list value) (w : world) : world :=
  match q with
  | [] => w
  | _ =>
      World (written LEGACY_QUARANTINE_PATH
               (JsonText (VList (entries_of (files w !! LEGACY_QUARANTINE_PATH) ++ q)))
               (files w))
            (stdout w ++ [Quarantined (length q)])
  end.

(** Where verification starts: at the first record that resolves when a
    legacy prefix is allowed, at position 0 otherwise. *)
Definition start_of (allow_legacy_prefix : bool) (l : list value) : option nat :=
  if allow_legacy_prefix then first_verifiable 0 l else Some 0%nat.


(** The world after [print m]. *)
Definition printed (m : message) (w : world) : world :=
  World (files w) (stdout w ++ [m]).

(** The previous-hash field as the verifier reads it at position [i]. *)
Definition read_prev (start i : nat) (d : dict) : string :=
  str (get_or d "prev_hash" (VStr (if Nat.eqb i start then "GENESIS" else ""))).

(** 1000.0 and 1001.0 *)
Definition t1000 : PyFloat.float := S754_finite false 8796093022208000 (-43).
Definition t1001 : PyFloat.float := S754_finite false 8804889115230208 (-43).

(** The scenario of a legacy record followed by a canonical one. *)
Definition legacy_record : value :=
  VDict [ ("name", VStr "audit_log"); ("priority", VStr "P1"); ("timestamp", VFloat t1000) ].

(** The hash derived from the legacy record's mapped fields. *)
Definition legacy_hash : string :=
  hash_block (_canonical_block_for_hash 0 "audit_log" "P1" t1000 "GENESIS").

Definition scenario_ledger (organ tier : string) (ts : PyFloat.float) : list value :=
  [ legacy_record; VDict (appended_block 1 organ tier ts legacy_hash) ].

(** A store that holds only the ledger [l]. *)
Definition store_of (l : list value) : world :=
  World {[ LEDGER_PATH := JsonText (VList l) ]} [].

(** Two appends on an empty store leave this chain. *)
Definition two_block_chain : list value :=
  chain_of 0 "GENESIS" [("sentinel", "P0", t1000); ("guardian", "P1", t1001)].

(** A ledger none of whose records passes the minimum-fields test. *)
Definition unmappable_ledger : list value :=
  [ VStr "junk"; VDict [("x", VInt 1)] ].




(** Whether a record carries a stored hash, as line 265 tests it. *)
Definition stores_hash (b : value) : bool :=
  match b with
  | VDict d => negb (is_none (get d "hash"))
  | _ => false
  end.


(** A digit of a lower-case hexadecimal numeral. *)
Definition lower_hex (c : ascii) : bool :=
  ((48 <=? code c) && (code c <=? 57)) || ((97 <=? code c) && (code c <=? 102)).

(** No key of the block gives an organ: [organ] is absent or null, the
    first three fallbacks are falsy and the last one is absent or null. *)
Definition organ_missing (d : dict) : bool :=
  is_none (get d "organ")
  && negb (truthy (get d "name"))
  && negb (truthy (get d "organ_name"))
  && negb (truthy (get d "service"))
  && is_none (get d "module").

(** The same for the tier and its fallbacks. *)
Definition tier_missing (d : dict) : bool :=
  is_none (get d "tier")
  && negb (truthy (get d "priority"))
  && negb (truthy (get d "level"))
  && negb (truthy (get d "tier_name"))
  && is_none (get d "class").

(** The notices that go with a return of [True] from [verify_ledger]. *)
Definition is_acceptance (m : message) : bool :=
  match m with
  | LedgerEmpty | IntegrityVerified => true
  | _ => false
  end.

(** The position a notice of rejection names. *)
Definition position_of (m : message) : option nat :=
  match m with
  | NotAnObject i | MissingMappedFields i | BadTimestamp i
  | BrokenChain i | TamperingDetected i | MissingHashStrict i => Some i
  | _ => None
  end.

(** A record that is not an object, then the legacy record. *)
Definition mixed_ledger : list value := [ VStr "junk"; legacy_record ].

(** A record whose index is not a numeral. *)
Definition misindexed_record : dict :=
  [ ("index", VStr "seven"); ("organ", VStr "archive"); ("tier", VStr "P2");
    ("timestamp", VFloat t1001) ].


(** The canonical fields of a first block, keys in the opposite order. *)
Definition reversed_block : dict :=
  [ ("prev_hash", VStr "GENESIS"); ("timestamp", VFloat t1000); ("tier", VStr "P0");
    ("organ", VStr "sentinel"); ("index", VInt 0) ].

(** A store whose ledger file is not JSON. *)
Definition garbled_store : world :=
  World {[ LEDGER_PATH := NotJson "{not json" ]} [].

(** The files of a store of texts, as bytes. *)
Definition on_disk (w : world) : Disk.disk :=
  (fun f => Disk.Utf8 (Disk.Plain f)) <$> files w.


(** On every store whose ledger file holds the text [f], [load_ledger]
    and the three public operations raise [e] and leave the store and the
    output as they were. *)
Definition stops_all (e : exn) (f : file) : Prop :=
  forall w organ tier now strict_hash allow_legacy_prefix backup,
    files w !! LEDGER_PATH = Some f ->
    load_ledger w = (Raise e, w)
    /\ append_ledger_entry organ tier now w = (Raise e, w)
    /\ verify_ledger strict_hash allow_legacy_prefix w = (Raise e, w)
    /\ migrate_ledger_in_place backup w = (Raise e, w).

(** A ledger file whose bytes are not UTF-8, such as [5B 22 FF 22 5D]. *)
Definition undecodable_disk : Disk.disk := {[ LEDGER_PATH := Disk.Undecodable ]}.

(** A ledger file that holds a list of one integer of 4301 digits. *)
Definition overlong_disk : Disk.disk :=
  {[ LEDGER_PATH := Disk.Utf8 (Disk.Plain (JsonText (VList [VInt (10 ^ 4300)]))) ]}.

(* ===================================================================== *)
(** * Properties                                                          *)
(* ===================================================================== *)

(** ** The store, as the operations see it *)

Section Store.

Implicit Types (w : world) (l : list value).

(** What [load_ledger] does, by the content of the ledger file. *)
Lemma load_ledger_eq w :
  load_ledger w =
  match files w !! LEDGER_PATH with
  | None => (Ok [], w)
  | Some (JsonText (VList l)) => (Ok l, w)
  | Some (JsonText _) => (Raise (RuntimeError NotAList), w)
  | Some (NotJson _) => (Raise (RuntimeError NotValidJson), w)
  end.
Proof.
  unfold load_ledger, bind, path_exists, try_except, read_text.
  destruct (files w !! LEDGER_PATH) as [[raw|doc]|] eqn:E; cbn; rewrite ?E; cbn; try reflexivity.
  destruct doc; reflexivity.
Qed.

Lemma load_ledger_world w r w' : load_ledger w = (r, w') -> w' = w.
Proof.
  rewrite load_ledger_eq.
  destruct (files w !! LEDGER_PATH) as [[raw|[]]|]; intros [= _ <-]; reflexivity.
Qed.

Lemma load_ledger_fst w l : fst (load_ledger w) = Ok l -> load_ledger w = (Ok l, w).
Proof.
  destruct (load_ledger w) as [r w'] eqn:E. cbn. intros ->.
  by rewrite (load_ledger_world _ _ _ E).
Qed.

Lemma atomic_write_eq path text w :
  path <> with_suffix path ".tmp" ->
  _atomic_write_text path text w = (Ok tt, World (written path text (files w)) (stdout w)).
Proof.
  intros Hne. unfold _atomic_write_text, bind, write_text, replace, written. cbn.
  rewrite lookup_insert_eq. do 2 f_equal.
  rewrite insert_insert_ne by done.
  by rewrite delete_insert_eq.
Qed.

Lemma written_lookup path text fs :
  path <> with_suffix path ".tmp" -> written path text fs !! path = Some text.
Proof.
  intros Hne. unfold written. rewrite lookup_delete_ne by done. apply lookup_insert_eq.
Qed.

Lemma written_lookup_ne path text fs q :
  q <> path -> q <> with_suffix path ".tmp" -> written path text fs !! q = fs !! q.
Proof.
  intros H1 H2. unfold written. rewrite lookup_delete_ne by done.
  by rewrite lookup_insert_ne.
Qed.

Lemma ledger_tmp_ne : LEDGER_PATH <> with_suffix LEDGER_PATH ".tmp".
Proof. discriminate. Qed.

Lemma save_ledger_eq l w :
  save_ledger l w =
  (Ok tt, World (written LEDGER_PATH (JsonText (VList l)) (files w)) (stdout w)).
Proof. apply atomic_write_eq, ledger_tmp_ne. Qed.

(** The whole effect of one append on a store that loads. *)
Lemma append_ledger_entry_eq organ tier now w l :
  load_ledger w = (Ok l, w) ->
  append_ledger_entry organ tier now w =
  (Ok tt,
   World (written LEDGER_PATH
            (JsonText (VList (l ++ [VDict (appended_block (length l) organ tier now
                                             (resolve_prev_hash l))])))
            (files w))
         (stdout w ++ [Recorded organ (length l)])).
Proof.
  intros Hl. unfold append_ledger_entry, bind. rewrite Hl.
  rewrite save_ledger_eq. reflexivity.
Qed.

End Store.

(** ** Loading: malformed stores, absent stores *)

Section Loading.

Implicit Types (w : world) (l : list value).

(** When [load_ledger] raises on a text, so does every operation. *)
Lemma stops_all_intro e f :
  (forall w, files w !! LEDGER_PATH = Some f -> load_ledger w = (Raise e, w)) ->
  stops_all e f.
Proof.
  intros H w organ tier now strict_hash allow_legacy_prefix backup Hf.
  specialize (H w Hf).
  unfold append_ledger_entry, verify_ledger, migrate_ledger_in_place, bind.
  rewrite H. repeat split; reflexivity.
Qed.

(** C8, as the code has it. What [load_ledger] does, by the content of
    the ledger file. It raises the malformed-ledger error ([RuntimeError])
    exactly when the file is present, its bytes decode, and [json.loads]
    either rejects the text with [JSONDecodeError] or returns a document
    that is not a list; append, verify and migrate then raise the same
    error and leave the store untouched. Bytes that do not decode raise
    [UnicodeDecodeError] instead, and a text in which [json.loads] meets
    an integer of more than 4300 digits or nesting beyond the recursion
    limit raises [ValueError] or [RecursionError]: the handler of line 60
    catches [JSONDecodeError] only. An absent file is the empty ledger,
    a file holding a list within the limits is that list. *)
Theorem load_ledger_malformed_exactly depth_left (d : Disk.disk) :
  match d !! LEDGER_PATH with
  | None => Disk.load_ledger depth_left d = Ok []
  | Some Disk.Undecodable => Disk.load_ledger depth_left d = Raise UnicodeDecodeError
  | Some (Disk.Utf8 (Disk.Overruns which)) =>
      Disk.load_ledger depth_left d = Raise (Disk.limit_error which)
  | Some (Disk.Utf8 (Disk.Plain (NotJson raw))) =>
      Disk.load_ledger depth_left d = Raise (RuntimeError NotValidJson)
      /\ stops_all (RuntimeError NotValidJson) (NotJson raw)
  | Some (Disk.Utf8 (Disk.Plain (JsonText doc))) =>
      match Disk.scan depth_left doc, doc with
      | Some which, _ => Disk.load_ledger depth_left d = Raise (Disk.limit_error which)
      | None, VList l => Disk.load_ledger depth_left d = Ok l
      | None, _ =>
          Disk.load_ledger depth_left d = Raise (RuntimeError NotAList)
          /\ stops_all (RuntimeError NotAList) (JsonText doc)
      end
  end.
Proof.
  unfold Disk.load_ledger, Disk.path_exists, Disk.read_text.
  destruct (d !! LEDGER_PATH) as [[|[[raw|doc]|which]]|] eqn:E; cbn; try reflexivity.
  - split; [reflexivity |]. apply stops_all_intro. intros w Hf.
    rewrite load_ledger_eq, Hf. reflexivity.
  - destruct (Disk.scan depth_left doc) as [which|]; [by destruct which |].
    destruct doc; try reflexivity;
      (split; [reflexivity |]; apply stops_all_intro; intros w Hf;
       rewrite load_ledger_eq, Hf; reflexivity).
  - by destruct which.
Qed.

Lemma load_ledger_malformed_exactly_witness :
  Disk.load_ledger 1000 (on_disk garbled_store) = Raise (RuntimeError NotValidJson)
  /\ append_ledger_entry "sentinel" "P0" t1000 garbled_store
     = (Raise (RuntimeError NotValidJson), garbled_store)
  /\ verify_ledger true true garbled_store
     = (Raise (RuntimeError NotValidJson), garbled_store)
  /\ migrate_ledger_in_place true garbled_store
     = (Raise (RuntimeError NotValidJson), garbled_store).
Proof.
  pose proof (load_ledger_malformed_exactly 1000 (on_disk garbled_store)) as H.
  change (on_disk garbled_store !! LEDGER_PATH)
    with (Some (Disk.Utf8 (Disk.Plain (NotJson "{not json")))) in H.
  destruct H as [Hload Hstops]. split; [exact Hload |].
  apply (Hstops garbled_store "sentinel" "P0" t1000 true true true). reflexivity.
Defined.

(** C8 does not hold as stated: a ledger file that is present and is not
    valid JSON, its bytes not even text, makes [load_ledger] raise
    [UnicodeDecodeError], not the malformed-ledger error; and a file that
    is valid JSON with a list at the top makes it raise [ValueError] when
    the list holds an integer of 4301 digits. *)
Lemma unreadable_ledger_raises_another_error :
  undecodable_disk !! LEDGER_PATH = Some Disk.Undecodable
  /\ Disk.load_ledger 1000 undecodable_disk = Raise UnicodeDecodeError
  /\ Disk.load_ledger 1000 overlong_disk = Raise ValueError.
Proof. vm_compute. repeat split; reflexivity. Qed.

(** C10. On an empty or absent ledger, migrate returns (0, 0, 0) at once:
    no file is written, whatever [backup] says; only the notice is
    printed. *)
Theorem migrate_empty_touches_nothing backup w :
  fst (load_ledger w) = Ok [] ->
  migrate_ledger_in_place backup w =
  (Ok (0, 0, 0)%nat, World (files w) (stdout w ++ [NothingToMigrate])).
Proof.
  intros H%load_ledger_fst. unfold migrate_ledger_in_place, bind. rewrite H. reflexivity.
Qed.

Lemma migrate_empty_touches_nothing_witness :
  fst (load_ledger (World ∅ [LedgerEmpty])) = Ok []
  /\ migrate_ledger_in_place true (World ∅ [LedgerEmpty]) =
     (Ok (0, 0, 0)%nat, World ∅ [LedgerEmpty; NothingToMigrate]).
Proof.
  split; [reflexivity |].
  apply (migrate_empty_touches_nothing true (World ∅ [LedgerEmpty])). reflexivity.
Defined.

End Loading.

(** ** Appending *)

Section Appending.

Implicit Types (w : world) (l : list value).





End Appending.

(** ** Chains built by appending *)

Section Chains.

Implicit Types (w : world) (l : list value) (es : list entry).

Lemma hash_block_truthy b : truthy (VStr (hash_block b)) = true.
Proof. reflexivity. Qed.

Lemma resolve_prev_hash_snoc l i organ tier now prev :
  resolve_prev_hash (l ++ [VDict (appended_block i organ tier now prev)]) =
  hash_block (_canonical_block_for_hash (Z.of_nat i) organ tier now prev).
Proof.
  unfold resolve_prev_hash. rewrite last_snoc.
  change (get (appended_block i organ tier now prev) "hash")
    with (VStr (hash_block (_canonical_block_for_hash (Z.of_nat i) organ tier now prev))).
  rewrite hash_block_truthy. reflexivity.
Qed.

Lemma chain_of_snoc es i prev organ tier now :
  chain_of i prev (es ++ [(organ, tier, now)]) =
  (chain_of i prev es
   ++ [VDict (appended_block (i + length es) organ tier now (chain_tip i prev es))]).
Proof.
  revert i prev. induction es as [|[[o t] n] es IH]; intros i prev; cbn [chain_of chain_tip app length].
  - by rewrite Nat.add_0_r.
  - rewrite IH. by rewrite Nat.add_succ_r.
Qed.

Lemma chain_tip_snoc es i prev organ tier now :
  chain_tip i prev (es ++ [(organ, tier, now)]) =
  hash_block (_canonical_block_for_hash (Z.of_nat (i + length es)) organ tier now
                (chain_tip i prev es)).
Proof.
  revert i prev. induction es as [|[[o t] n] es IH]; intros i prev; cbn [chain_tip app length].
  - by rewrite Nat.add_0_r.
  - rewrite IH. by rewrite Nat.add_succ_r.
Qed.

Lemma length_chain_of es i prev : length (chain_of i prev es) = length es.
Proof.
  revert i prev. induction es as [|[[o t] n] es IH]; intros i prev; cbn; [done | by rewrite IH].
Qed.

Lemma resolve_prev_hash_chain es :
  resolve_prev_hash (chain_of 0 "GENESIS" es) = chain_tip 0 "GENESIS" es.
Proof.
  destruct es as [|e es _] using rev_ind; [reflexivity |].
  destruct e as [[o t] n].
  by rewrite chain_of_snoc, resolve_prev_hash_snoc, chain_tip_snoc.
Qed.

Lemma run_appends_chain es : forall es0 w,
  load_ledger w = (Ok (chain_of 0 "GENESIS" es0), w) ->
  exists w', run_appends es w = (Ok tt, w')
             /\ load_ledger w' = (Ok (chain_of 0 "GENESIS" (es0 ++ es)), w').
Proof.
  induction es as [|[[o t] n] es IH]; intros es0 w Hl.
  - exists w. by rewrite app_nil_r.
  - cbn [run_appends]. unfold bind at 1.
    rewrite (append_ledger_entry_eq _ _ _ _ _ Hl).
    rewrite resolve_prev_hash_chain, length_chain_of.
    match goal with |- context [run_appends es ?w1] => set (w1' := w1) end.
    destruct (IH (es0 ++ [(o, t, n)]) w1') as (w' & Hrun & Hload).
    + rewrite load_ledger_eq. unfold w1'. cbn [files].
      rewrite written_lookup by apply ledger_tmp_ne.
      by rewrite chain_of_snoc.
    + exists w'. split; [done |]. by rewrite <- app_assoc in Hload.
Qed.

Lemma verify_from_chain strict es : forall i prev prev_expected w,
  (i = 0%nat \/ prev_expected = Some prev) ->
  verify_from strict 0 i prev_expected (chain_of i prev es) w = (Ok true, w).
Proof.
  induction es as [|[[o t] n] es IH]; intros i prev pe w Hi; [reflexivity |].
  cbn [chain_of verify_from]. unfold bind at 1.
  assert (verify_block strict 0 i pe (VDict (appended_block i o t n prev)) w =
          (Ok (Some (hash_block (_canonical_block_for_hash (Z.of_nat i) o t n prev))), w)) as ->.
  { unfold verify_block, bind, lift. cbn.
    replace (if (i =? 0)%nat then prev else prev) with prev by (by destruct (i =? 0)%nat).
    rewrite String.eqb_refl. cbn.
    destruct Hi as [-> | ->]; cbn; [done |].
    rewrite String.eqb_refl. cbn. by rewrite andb_false_r. }
  apply IH. by right.
Qed.

Lemma verify_ledger_chain es w :
  load_ledger w = (Ok (chain_of 0 "GENESIS" es), w) ->
  fst (verify_ledger true true w) = Ok true.
Proof.
  intros Hl. unfold verify_ledger, bind at 1. rewrite Hl.
  destruct es as [|[[o t] n] es]; [reflexivity |].
  cbn -[verify_from]. unfold bind.
  change (drop 0 ?l) with l.
  pose proof (verify_from_chain true ((o, t, n) :: es) 0 "GENESIS" None w (or_introl eq_refl)) as H.
  cbn [chain_of] in H. rewrite H. reflexivity.
Qed.

End Chains.

(** C1. A ledger built by calls of [append_ledger_entry] alone, from an
    absent or empty ledger file, with any subjects, categories and clock
    readings: every call returns, and [verify_ledger] with
    [strict_hash = true] and [allow_legacy_prefix = true] returns true on
    the chain they leave in the store. *)
Theorem appended_ledger_verifies w entries :
  no_ledger_yet w = true ->
  exists w',
    run_appends entries w = (Ok tt, w')
    /\ fst (verify_ledger true true w') = Ok true.
Proof.
  intros Hw.
  assert (load_ledger w = (Ok (chain_of 0 "GENESIS" []), w)) as Hl.
  { rewrite load_ledger_eq. unfold no_ledger_yet in Hw.
    destruct (files w !! LEDGER_PATH) as [[raw|[]]|]; try done.
    by destruct items. }
  destruct (run_appends_chain entries [] w Hl) as (w' & Hrun & Hload).
  exists w'. split; [done |]. eapply verify_ledger_chain, Hload.
Qed.

Lemma appended_ledger_verifies_witness :
  no_ledger_yet (World ∅ []) = true
  /\ exists w',
       run_appends [("sentinel", "P0", t1000); ("guardian", "P1", t1001)] (World ∅ [])
       = (Ok tt, w')
       /\ fst (verify_ledger true true w') = Ok true.
Proof.
  split; [reflexivity |].
  apply (appended_ledger_verifies (World ∅ [])
           [("sentinel", "P0", t1000); ("guardian", "P1", t1001)]).
  reflexivity.
Defined.

(** ** Migration *)

Section Migration.

Implicit Types (w : world) (l : list value).

Lemma load_json_list_eq path w :
  _load_json_list path w = (Ok (entries_of (files w !! path)), w).
Proof.
  unfold _load_json_list, bind, path_exists, try_except, read_text, entries_of.
  destruct (files w !! path) as [[raw|doc]|] eqn:E; cbn; rewrite ?E; cbn; try reflexivity.
  destruct doc; reflexivity.
Qed.

Lemma legacy_tmp_ne : LEGACY_QUARANTINE_PATH <> with_suffix LEGACY_QUARANTINE_PATH ".tmp".
Proof. discriminate. Qed.

Lemma bak_tmp_ne :
  with_suffix LEDGER_PATH ".bak" <> with_suffix (with_suffix LEDGER_PATH ".bak") ".tmp".
Proof. discriminate. Qed.

(** The whole effect of migrate on a store that loads as a non-empty list. *)
Lemma migrate_eq backup w l :
  load_ledger w = (Ok l, w) -> l <> [] ->
  let w2 := after_quarantine (fst (split_blocks 0 l)) (after_backup backup w) in
  migrate_ledger_in_place backup w =
  match snd (split_blocks 0 l) with
  | [] => (Ok (0%nat, length (fst (split_blocks 0 l)), length l),
           World (files w2) (stdout w2 ++ [NoMigratableBlocks]))
  | cleaned =>
      match rewrite_chain 0 "GENESIS" cleaned with
      | Ok (new_ledger, modified) =>
          (Ok (modified, length (fst (split_blocks 0 l)), length l),
           World (written LEDGER_PATH (JsonText (VList new_ledger)) (files w2))
                 (stdout w2 ++ [MigrationComplete (length new_ledger)]))
      | Raise e => (Raise e, w2)
      end
  end.
Proof.
  intros Hl Hne w2. subst w2.
  unfold migrate_ledger_in_place, bind at 1. rewrite Hl.
  destruct l as [|b l']; [done |]. set (l := b :: l') in *.
  assert (exists text, files w !! LEDGER_PATH = Some text) as [text Htext].
  { rewrite load_ledger_eq in Hl. destruct (files w !! LEDGER_PATH); [by eexists |].
    by injection Hl. }
  unfold after_backup, after_quarantine. rewrite Htext.
  destruct (split_blocks 0 l) as [q c]. cbn [fst snd].
  unfold _save_json_list.
  destruct backup, q as [|q0 q], c as [|c0 c];
    unfold bind, path_exists, read_text, print, lift, ret;
    repeat (cbn beta iota;
            first [ rewrite Htext
                  | progress change (bool_decide (is_Some (Some text))) with true
                  | progress cbn [andb]
                  | rewrite atomic_write_eq by (apply bak_tmp_ne || apply legacy_tmp_ne)
                  | rewrite load_json_list_eq
                  | rewrite save_ledger_eq ]);
    try reflexivity;
    destruct (rewrite_chain 0 "GENESIS" (c0 :: c)) as [[nl m]|e];
    repeat (cbn beta iota; rewrite save_ledger_eq);
    reflexivity.
Qed.

Lemma split_blocks_length l : forall i,
  (length (fst (split_blocks i l)) + length (snd (split_blocks i l)))%nat = length l.
Proof.
  induction l as [|b l IH]; intros i; [reflexivity |].
  cbn [split_blocks]. specialize (IH (S i)).
  destruct (split_blocks (S i) l) as [q c]. cbn [fst snd] in IH.
  destruct b; cbn [fst snd length]; try lia.
  destruct (_map_legacy_fields fields) as [o t].
  destruct (_ || _); cbn [fst snd length]; lia.
Qed.


Lemma split_blocks_all l : forall i,
  forallb resolves l = true -> fst (split_blocks i l) = [].
Proof.
  induction l as [|b l IH]; intros i H; [reflexivity |].
  cbn [forallb] in H. apply andb_prop in H as [Hb Hr].
  cbn [split_blocks]. specialize (IH (S i) Hr).
  destruct (split_blocks (S i) l) as [q c]. cbn [fst] in IH. subst q.
  destruct b; try discriminate Hb.
  unfold resolves in Hb.
  destruct (_map_legacy_fields fields) as [[o|] [t|]]; try discriminate Hb.
  cbn. rewrite Hb. reflexivity.
Qed.

Lemma after_steps_ledger backup q w :
  files (after_quarantine q (after_backup backup w)) !! LEDGER_PATH = files w !! LEDGER_PATH.
Proof.
  assert (files (after_backup backup w) !! LEDGER_PATH = files w !! LEDGER_PATH) as Hb.
  { unfold after_backup. destruct (files w !! LEDGER_PATH) eqn:E; [| done].
    destruct backup; [| done]. cbn [files].
    rewrite written_lookup_ne by discriminate. done. }
  unfold after_quarantine. destruct q; [done |]. cbn [files].
  by rewrite written_lookup_ne by discriminate.
Qed.



End Migration.



Section Canonical.

Implicit Types (w : world) (l : list value).

Lemma canonical_chain_cons i prev b rest :
  canonical_chain i prev (b :: rest) = true ->
  exists d organ tier stamp ts,
    b = VDict d
    /\ dict_get "index" d = Some (VInt (Z.of_nat i))
    /\ dict_get "organ" d = Some (VStr organ)
    /\ dict_get "tier" d = Some (VStr tier)
    /\ dict_get "timestamp" d = Some stamp
    /\ float stamp = Ok ts
    /\ dict_get "prev_hash" d = Some (VStr prev)
    /\ dict_get "hash" d =
       Some (VStr (hash_block (_canonical_block_for_hash (Z.of_nat i) organ tier ts prev)))
    /\ canonical_chain (S i)
         (hash_block (_canonical_block_for_hash (Z.of_nat i) organ tier ts prev)) rest = true.
Proof.
  cbn [canonical_chain]. intros H.
  destruct b as [| | | | | |d]; try discriminate H.
  destruct (dict_get "index" d) as [[| |n| | | |]|] eqn:?; try discriminate H.
  destruct (dict_get "organ" d) as [[| | | |organ| |]|] eqn:?; try discriminate H.
  destruct (dict_get "tier" d) as [[| | | |tier| |]|] eqn:?; try discriminate H.
  destruct (dict_get "timestamp" d) as [stamp|] eqn:?; try discriminate H.
  destruct (dict_get "prev_hash" d) as [[| | | |p| |]|] eqn:?; try discriminate H.
  destruct (dict_get "hash" d) as [[| | | |h| |]|] eqn:?; try discriminate H.
  destruct (float stamp) as [ts|] eqn:Hts; try discriminate H.
  apply andb_prop in H as [H Hrest]. apply andb_prop in H as [H Hh].
  apply andb_prop in H as [Hn Hp].
  apply Z.eqb_eq in Hn as ->. apply String.eqb_eq in Hp as ->. apply String.eqb_eq in Hh as ->.
  exists d, organ, tier, stamp, ts. repeat split; try reflexivity; assumption.
Qed.

Lemma map_canonical d organ tier :
  dict_get "organ" d = Some (VStr organ) ->
  dict_get "tier" d = Some (VStr tier) ->
  _map_legacy_fields d = (Some organ, Some tier).
Proof.
  intros Ho Ht. unfold _map_legacy_fields, get, get_or. rewrite Ho, Ht. reflexivity.
Qed.

Lemma canonical_chain_migrates l : forall i j prev,
  canonical_chain i prev l = true ->
  fst (split_blocks j l) = []
  /\ length (snd (split_blocks j l)) = length l
  /\ exists new_ledger,
       rewrite_chain i prev (snd (split_blocks j l)) = Ok (new_ledger, 0%nat).
Proof.
  induction l as [|b l IH]; intros i j prev H.
  - cbn. eauto.
  - apply canonical_chain_cons in H
      as (d & organ & tier & stamp & ts & -> & Hi & Ho & Ht & Hs & Hf & Hp & Hh & Hrest).
    destruct (IH (S i) (S j) _ Hrest) as (Hq & Hlen & nl & Hrw).
    cbn [split_blocks]. destruct (split_blocks (S j) l) as [q c]. cbn [fst snd] in *.
    subst q. rewrite (map_canonical _ _ _ Ho Ht).
    unfold dict_has. rewrite Hs. cbn [bool_decide negb orb fst snd length].
    replace (bool_decide (is_Some (Some organ))) with true by done.
    replace (bool_decide (is_Some (Some tier))) with true by done.
    cbn [negb orb fst snd length].
    split; [reflexivity |]. split; [by rewrite Hlen |].
    cbn [rewrite_chain]. rewrite (map_canonical _ _ _ Ho Ht).
    unfold item. rewrite Hs, Hf. cbn [str_opt].
    rewrite Hrw. unfold get, get_or. rewrite Hi, Hp, Hh, Ho, Ht.
    cbn [eq_int eq_str]. rewrite Z.eqb_refl, !String.eqb_refl. cbn.
    eauto.
Qed.

End Canonical.

(** C4. On an already canonical chain (dense integer indices from 0,
    string organ and tier, numeric timestamps, [prev_hash] links from
    GENESIS on and stored hashes equal to the recomputed canonical ones)
    migrate reports no modified and no quarantined record. *)
Theorem migrate_canonical_is_idempotent backup w l :
  fst (load_ledger w) = Ok l ->
  canonical_chain 0 "GENESIS" l = true ->
  fst (migrate_ledger_in_place backup w) = Ok (0%nat, 0%nat, length l).
Proof.
  intros Hl%load_ledger_fst Hc.
  destruct (decide (l = [])) as [-> | Hne].
  - unfold migrate_ledger_in_place, bind. rewrite Hl. reflexivity.
  - rewrite (migrate_eq backup w l Hl Hne).
    destruct (canonical_chain_migrates l 0 0 _ Hc) as (Hq & Hlen & nl & Hrw).
    rewrite Hq. destruct (snd (split_blocks 0 l)) as [|c0 c] eqn:Hs.
    + destruct l; [done | discriminate Hlen].
    + rewrite Hrw. reflexivity.
Qed.

(** ** Verification *)

Section Verifying.

Implicit Types (w : world) (l : list value) (d : dict).

Lemma verify_block_resolved strict start i pe d w idx organ tier ts :
  int (get_or d "index" (VInt (Z.of_nat i))) = Ok idx ->
  _map_legacy_fields d = (Some organ, Some tier) ->
  (let* v := item d "timestamp" in float v) = Ok ts ->
  verify_block strict start i pe (VDict d) w =
  let prev_hash := read_prev start i d in
  let expected := hash_block (_canonical_block_for_hash idx organ tier ts prev_hash) in
  if negb (Nat.eqb i start)
     && match pe with None => true | Some h => negb (String.eqb prev_hash h) end
  then (Ok None, printed (BrokenChain i) w)
  else if negb (is_none (get d "hash")) then
    if negb (String.eqb (str (get d "hash")) expected)
    then (Ok None, printed (TamperingDetected i) w)
    else (Ok (Some expected), w)
  else if strict then (Ok None, printed (MissingHashStrict i) w)
  else (Ok (Some expected), w).
Proof.
  intros Hi Hm Ht. unfold verify_block, bind, lift, read_prev. rewrite Hi, Hm.
  cbn beta iota. rewrite Ht. cbn beta iota zeta.
  destruct (Nat.eqb i start); cbn [negb andb].
  - destruct (is_none (get d "hash")); cbn [negb].
    + by destruct strict.
    + by destruct (String.eqb _ _).
  - destruct pe as [h|]; [| reflexivity].
    destruct (negb (String.eqb _ h)); [reflexivity |].
    destruct (is_none (get d "hash")); cbn [negb].
    + by destruct strict.
    + by destruct (String.eqb _ _).
Qed.

Lemma verify_block_accept_inv strict start i pe b w h w' :
  verify_block strict start i pe b w = (Ok (Some h), w') ->
  exists d idx organ tier ts,
    b = VDict d
    /\ int (get_or d "index" (VInt (Z.of_nat i))) = Ok idx
    /\ _map_legacy_fields d = (Some organ, Some tier)
    /\ (let* v := item d "timestamp" in float v) = Ok ts.
Proof.
  unfold verify_block, bind, lift, print, ret.
  destruct b as [| | | | | |d]; try discriminate.
  destruct (int _) as [idx|] eqn:Hi; [| discriminate].
  destruct (_map_legacy_fields d) as [[organ|] [tier|]] eqn:Hm; try discriminate.
  destruct (let* v := item d "timestamp" in float v) as [ts|] eqn:Ht; [| discriminate].
  intros _. by exists d, idx, organ, tier, ts.
Qed.

(** What acceptance of a record says. *)
Lemma verify_block_accept strict start i pe b w h w' :
  verify_block strict start i pe b w = (Ok (Some h), w') ->
  w' = w
  /\ exists d idx organ tier ts,
       b = VDict d
       /\ int (get_or d "index" (VInt (Z.of_nat i))) = Ok idx
       /\ _map_legacy_fields d = (Some organ, Some tier)
       /\ (let* v := item d "timestamp" in float v) = Ok ts
       /\ (i = start \/ pe = Some (read_prev start i d))
       /\ h = hash_block (_canonical_block_for_hash idx organ tier ts (read_prev start i d))
       /\ (if is_none (get d "hash") then strict = false else str (get d "hash") = h).
Proof.
  intros H.
  destruct (verify_block_accept_inv _ _ _ _ _ _ _ _ H)
    as (d & idx & organ & tier & ts & -> & Hi & Hm & Ht).
  rewrite (verify_block_resolved _ _ _ _ _ _ _ _ _ _ Hi Hm Ht) in H. cbn zeta in H.
  assert (i = start \/ pe = Some (read_prev start i d)) as Hlink.
  { destruct (Nat.eqb_spec i start); [by left | right].
    cbn [negb andb] in H. destruct pe as [p|]; [| discriminate H].
    destruct (String.eqb_spec (read_prev start i d) p); [by subst | discriminate H]. }
  assert (negb (Nat.eqb i start)
          && match pe with
             | None => true
             | Some p => negb (String.eqb (read_prev start i d) p)
             end = false) as Hno.
  { destruct Hlink as [-> | ->]; [by rewrite Nat.eqb_refl |].
    rewrite String.eqb_refl. apply andb_false_r. }
  rewrite Hno in H.
  destruct (is_none (get d "hash")) eqn:Hnone; cbn [negb] in H.
  - destruct strict; [discriminate H |]. injection H as <- <-.
    split; [done |]. exists d, idx, organ, tier, ts. rewrite Hnone. repeat split; done.
  - destruct (String.eqb_spec (str (get d "hash"))
                (hash_block (_canonical_block_for_hash idx organ tier ts (read_prev start i d))))
      as [He|]; [| discriminate H].
    cbn [negb] in H. injection H as <- <-.
    split; [done |]. exists d, idx, organ, tier, ts. rewrite Hnone. repeat split; done.
Qed.

(** Acceptance does not depend on the world. *)
Lemma verify_block_accept_any strict start i pe b w h w' w2 :
  verify_block strict start i pe b w = (Ok (Some h), w') ->
  verify_block strict start i pe b w2 = (Ok (Some h), w2).
Proof.
  intros H. destruct (verify_block_accept _ _ _ _ _ _ _ _ H)
    as (_ & d & idx & organ & tier & ts & -> & Hi & Hm & Ht & Hlink & -> & Hh).
  rewrite (verify_block_resolved _ _ _ _ _ _ _ _ _ _ Hi Hm Ht). cbn zeta.
  assert (negb (Nat.eqb i start)
          && match pe with
             | None => true
             | Some p => negb (String.eqb (read_prev start i d) p)
             end = false) as ->.
  { destruct Hlink as [-> | ->]; [by rewrite Nat.eqb_refl |].
    rewrite String.eqb_refl. apply andb_false_r. }
  destruct (is_none (get d "hash")); cbn [negb].
  - by rewrite Hh.
  - by rewrite Hh, String.eqb_refl.
Qed.

Lemma verify_from_cons_inv strict start i pe b rest w w' :
  verify_from strict start i pe (b :: rest) w = (Ok true, w') ->
  exists h,
    verify_block strict start i pe b w = (Ok (Some h), w)
    /\ verify_from strict start (S i) (Some h) rest w = (Ok true, w').
Proof.
  cbn [verify_from]. unfold bind at 1.
  destruct (verify_block strict start i pe b w) as [[[h|]|e] w1] eqn:Hb; try discriminate.
  intros H. destruct (verify_block_accept _ _ _ _ _ _ _ _ Hb) as [-> _]. eauto.
Qed.

Lemma verify_from_accept_world strict start blocks : forall i pe w w',
  verify_from strict start i pe blocks w = (Ok true, w') -> w' = w.
Proof.
  induction blocks as [|b rest IH]; intros i pe w w' H.
  - by injection H.
  - apply verify_from_cons_inv in H as (h & _ & H). eauto.
Qed.

Lemma verify_from_accept_any strict start blocks : forall i pe w w' w2,
  verify_from strict start i pe blocks w = (Ok true, w') ->
  verify_from strict start i pe blocks w2 = (Ok true, w2).
Proof.
  induction blocks as [|b rest IH]; intros i pe w w' w2 H; [reflexivity |].
  apply verify_from_cons_inv in H as (h & Hb & H).
  cbn [verify_from]. unfold bind at 1.
  rewrite (verify_block_accept_any _ _ _ _ _ _ _ _ w2 Hb). eauto.
Qed.

(** *** Dictionaries under assignment *)








Lemma resolved_resolves d organ tier ts :
  _map_legacy_fields d = (Some organ, Some tier) ->
  (let* v := item d "timestamp" in float v) = Ok ts ->
  resolves (VDict d) = true.
Proof.
  intros Hm Ht. unfold resolves. rewrite Hm. unfold dict_has, item in *.
  by destruct (dict_get "timestamp" d).
Qed.

(** *** The scan for the first verifiable record *)

Lemma first_verifiable_cons i b rest :
  first_verifiable i (b :: rest) =
  if resolves b then Some i else first_verifiable (S i) rest.
Proof.
  cbn [first_verifiable]. unfold resolves.
  destruct b as [| | | | | |d]; try reflexivity.
  destruct (_map_legacy_fields d) as [[o|] [t|]]; reflexivity.
Qed.

Lemma first_verifiable_ge l : forall i st, first_verifiable i l = Some st -> (i <= st)%nat.
Proof.
  induction l as [|b l IH]; intros i st; [discriminate |].
  rewrite first_verifiable_cons. destruct (resolves b).
  - intros [= <-]. lia.
  - intros H%IH. lia.
Qed.


(** *** Chains under the loop *)

Lemma verify_from_accept_resolves strict start blocks : forall i pe w w' j b,
  verify_from strict start i pe blocks w = (Ok true, w') ->
  blocks !! j = Some b ->
  resolves b = true.
Proof.
  induction blocks as [|b0 rest IH]; intros i pe w w' j b H Hj; [done |].
  apply verify_from_cons_inv in H as (h & Hb & H).
  destruct j as [|j]; [| by eapply IH].
  injection Hj as ->.
  destruct (verify_block_accept _ _ _ _ _ _ _ _ Hb)
    as (_ & d & idx & organ & tier & ts & -> & _ & Hm & Ht & _).
  by eapply resolved_resolves.
Qed.





(** [verify_ledger] on a store that loads as a non-empty list. *)
Lemma verify_ledger_eq strict allow w l :
  load_ledger w = (Ok l, w) -> l <> [] ->
  verify_ledger strict allow w =
  match start_of allow l with
  | None => (Ok false, printed NoVerifiableBlocks w)
  | Some start =>
      let w1 := if allow && (0 <? start)%nat then printed (SkippingLegacy start) w else w in
      match verify_from strict start start None (drop start l) w1 with
      | (Ok true, w2) => (Ok true, printed IntegrityVerified w2)
      | (Ok false, w2) => (Ok false, w2)
      | (Raise e, w2) => (Raise e, w2)
      end
  end.
Proof.
  intros Hl Hne. unfold verify_ledger, bind at 1. rewrite Hl.
  destruct l as [|b l']; [done |]. unfold start_of.
  destruct (if allow then first_verifiable 0 (b :: l') else Some 0%nat) as [start|];
    [| reflexivity].
  unfold bind, print, ret, printed. cbn zeta.
  destruct (allow && (0 <? start)%nat); cbn beta iota;
    destruct (verify_from strict start start None (drop start (b :: l')) _) as [[[|]|e] w2];
    reflexivity.
Qed.

Lemma with_ledger_loads l w : load_ledger (with_ledger l w) = (Ok l, with_ledger l w).
Proof. rewrite load_ledger_eq. unfold with_ledger. cbn [files]. by rewrite lookup_insert_eq. Qed.

End Verifying.




(** C3, as the code has it. For the ledger made of the legacy record
    {name: audit_log, priority: P1, timestamp: 1000.0} and one canonical
    record chained to the hash derived from the legacy record's mapped
    fields: the legacy record maps to a subject and a category, so it is
    verified and not skipped, and [allow_legacy_prefix] makes no
    difference. Without [strict_hash] verify returns true in both modes;
    with [strict_hash] it returns false in both, the legacy record
    storing no hash. *)
Theorem legacy_scenario_verifies_either_way w organ tier ts allow_legacy_prefix :
  let w' := with_ledger (scenario_ledger organ tier ts) w in
  fst (verify_ledger false allow_legacy_prefix w') = Ok true
  /\ fst (verify_ledger true allow_legacy_prefix w') = Ok false.
Proof.
  intros w'. subst w'.
  assert (start_of allow_legacy_prefix (scenario_ledger organ tier ts) = Some 0%nat) as Hs.
  { by destruct allow_legacy_prefix. }
  rewrite !(verify_ledger_eq _ _ _ _ (with_ledger_loads _ w)) by done.
  rewrite Hs. cbn zeta. rewrite andb_false_r. 
  change (drop 0 ?l) with l. unfold scenario_ledger, legacy_record.
  unfold verify_from, verify_block, bind, lift, print, ret. cbn.
  unfold legacy_hash. rewrite !String.eqb_refl. cbn. split; reflexivity.
Qed.

(** C3 does not hold as stated: on the scenario's ledger
    [verify(allow_legacy_prefix=false)] returns true, as
    [verify(allow_legacy_prefix=true)] does. *)
Lemma legacy_scenario_is_not_told_apart :
  fst (verify_ledger false true (store_of (scenario_ledger "guardian" "P1" t1001))) = Ok true
  /\ fst (verify_ledger false false (store_of (scenario_ledger "guardian" "P1" t1001))) = Ok true.
Proof. vm_compute. split; reflexivity. Qed.

(** ** Further instances *)

Lemma migrate_canonical_is_idempotent_witness :
  canonical_chain 0 "GENESIS" two_block_chain = true
  /\ fst (migrate_ledger_in_place true (store_of two_block_chain)) = Ok (0, 0, 2)%nat.
Proof.
  split; [vm_compute; reflexivity |].
  apply (migrate_canonical_is_idempotent true (store_of two_block_chain) two_block_chain);
    vm_compute; reflexivity.
Defined.



(* ===================================================================== *)
(** * Further properties of the ledger operations                        *)
(* ===================================================================== *)

(** ** Verification: what it reads, how its modes compare *)

Section ReadOnly.
Implicit Types (w : world) (l : list value) (d : dict).

Lemma verify_block_files strict start i pe b w :
  files (snd (verify_block strict start i pe b w)) = files w.
Proof.
  unfold verify_block, bind, lift, print, ret.
  repeat (case_match; cbn [fst snd files]; try reflexivity); simplify_eq; reflexivity.
Qed.

Lemma verify_from_files strict start blocks : forall i pe w,
  files (snd (verify_from strict start i pe blocks w)) = files w.
Proof.
  induction blocks as [|b rest IH]; intros i pe w; [reflexivity |].
  cbn [verify_from]. unfold bind at 1.
  pose proof (verify_block_files strict start i pe b w) as Hb.
  destruct (verify_block strict start i pe b w) as [[[h|]|e] w1]; cbn [snd] in *.
  - rewrite IH. exact Hb.
  - exact Hb.
  - exact Hb.
Qed.

End ReadOnly.

(** X1. [verify_ledger] writes no file: whatever it returns or raises, in
    either mode, every file of the store is as it was before the call. *)
Theorem verify_ledger_reads_only strict allow w :
  files (snd (verify_ledger strict allow w)) = files w.
Proof.
  unfold verify_ledger, bind at 1.
  destruct (load_ledger w) as [[l|e] w0] eqn:Hl;
    pose proof (load_ledger_world _ _ _ Hl) as ->; [| reflexivity].
  destruct l as [|b l]; [reflexivity |].
  destruct (if allow then first_verifiable 0 (b :: l) else Some 0%nat) as [start|];
    [| reflexivity].
  unfold bind, print, ret.
  destruct (allow && (0 <? start)%nat); cbn beta iota.
  - match goal with |- context [verify_from ?s ?st ?i ?pe ?bl ?w1] =>
      pose proof (verify_from_files s st bl i pe w1) as H;
      destruct (verify_from s st i pe bl w1) as [[[|]|e] w2] end; exact H.
  - match goal with |- context [verify_from ?s ?st ?i ?pe ?bl ?w1] =>
      pose proof (verify_from_files s st bl i pe w1) as H;
      destruct (verify_from s st i pe bl w1) as [[[|]|e] w2] end; exact H.
Qed.

Section Modes.
Implicit Types (w : world) (l : list value) (d : dict).

Lemma link_check_passes start i pe d :
  i = start \/ pe = Some (read_prev start i d) ->
  negb (Nat.eqb i start)
  && match pe with
     | None => true
     | Some p => negb (String.eqb (read_prev start i d) p)
     end = false.
Proof.
  intros [-> | ->]; [by rewrite Nat.eqb_refl |].
  rewrite String.eqb_refl. apply andb_false_r.
Qed.

(** Acceptance of a record in one mode, seen from the other. *)
Lemma verify_block_mode strict strict' start i pe b w w' h w2 :
  verify_block strict start i pe b w = (Ok (Some h), w') ->
  verify_block strict' start i pe b w2 =
  if strict' && negb (stores_hash b)
  then (Ok None, printed (MissingHashStrict i) w2)
  else (Ok (Some h), w2).
Proof.
  intros H. destruct (verify_block_accept _ _ _ _ _ _ _ _ H)
    as (_ & d & idx & organ & tier & ts & -> & Hi & Hm & Ht & Hlink & -> & Hh).
  rewrite (verify_block_resolved _ _ _ _ _ _ _ _ _ _ Hi Hm Ht). cbn zeta.
  rewrite (link_check_passes _ _ _ _ Hlink). cbn [stores_hash].
  destruct (is_none (get d "hash")); cbn [negb andb].
  - rewrite andb_true_r. by destruct strict'.
  - rewrite andb_false_r. by rewrite Hh, String.eqb_refl.
Qed.

Lemma verify_from_lenient strict start blocks : forall i pe w w' w2,
  verify_from strict start i pe blocks w = (Ok true, w') ->
  verify_from false start i pe blocks w2 = (Ok true, w2).
Proof.
  induction blocks as [|b rest IH]; intros i pe w w' w2 H; [reflexivity |].
  apply verify_from_cons_inv in H as (h & Hb & H).
  cbn [verify_from]. unfold bind at 1.
  rewrite (verify_block_mode _ false _ _ _ _ _ _ _ w2 Hb). cbn [andb]. eauto.
Qed.

Lemma verify_from_strict strict start blocks : forall i pe w w' w2,
  verify_from strict start i pe blocks w = (Ok true, w') ->
  fst (verify_from true start i pe blocks w2) = Ok (forallb stores_hash blocks).
Proof.
  induction blocks as [|b rest IH]; intros i pe w w' w2 H; [reflexivity |].
  apply verify_from_cons_inv in H as (h & Hb & H).
  cbn [verify_from forallb]. unfold bind at 1.
  rewrite (verify_block_mode _ true _ _ _ _ _ _ _ w2 Hb). cbn [andb].
  destruct (stores_hash b); cbn [negb andb]; [eauto | reflexivity].
Qed.

Lemma verify_ledger_accepts strict allow w l :
  load_ledger w = (Ok l, w) -> l <> [] ->
  fst (verify_ledger strict allow w) = Ok true ->
  exists start w1 w2,
    start_of allow l = Some start
    /\ verify_from strict start start None (drop start l) w1 = (Ok true, w2).
Proof.
  intros Hl Hne. rewrite (verify_ledger_eq _ _ _ _ Hl Hne).
  destruct (start_of allow l) as [start|]; [| discriminate]. cbn zeta.
  match goal with |- context [verify_from _ _ _ _ _ ?w1] => set (w1' := w1) end.
  destruct (verify_from strict start start None (drop start l) w1')
    as [[[|]|e] w2] eqn:Hfrom; try discriminate.
  intros _. by exists start, w1', w2.
Qed.

Lemma verify_ledger_result strict allow w l start b :
  load_ledger w = (Ok l, w) -> l <> [] ->
  start_of allow l = Some start ->
  (forall w1, fst (verify_from strict start start None (drop start l) w1) = Ok b) ->
  fst (verify_ledger strict allow w) = Ok b.
Proof.
  intros Hl Hne Hs H. rewrite (verify_ledger_eq _ _ _ _ Hl Hne), Hs. cbn zeta.
  match goal with |- context [verify_from _ _ _ _ _ ?w1] => specialize (H w1);
    destruct (verify_from strict start start None (drop start l) w1) as [[[|]|e] w2] end;
    cbn [fst] in *; congruence.
Qed.

Lemma verify_ledger_loaded strict allow w b :
  fst (verify_ledger strict allow w) = Ok b -> exists l, load_ledger w = (Ok l, w).
Proof.
  unfold verify_ledger, bind at 1.
  destruct (load_ledger w) as [[l|e] w0] eqn:Hl;
    pose proof (load_ledger_world _ _ _ Hl) as ->; [eauto | discriminate].
Qed.

Lemma verify_ledger_empty strict allow w :
  load_ledger w = (Ok [], w) -> fst (verify_ledger strict allow w) = Ok true.
Proof. intros Hl. unfold verify_ledger, bind at 1. by rewrite Hl. Qed.

End Modes.

(** X2. A ledger that [verify_ledger] accepts in one mode is accepted in
    every mode that is no stricter on stored hashes and no less willing to
    skip a legacy prefix. *)
Theorem verify_modes_monotone strict allow strict' allow' w :
  fst (verify_ledger strict allow w) = Ok true ->
  implb strict' strict = true ->
  implb allow allow' = true ->
  fst (verify_ledger strict' allow' w) = Ok true.
Proof.
  intros Hv Hs Ha. destruct (verify_ledger_loaded _ _ _ _ Hv) as [l Hl].
  destruct (decide (l = [])) as [-> | Hne]; [by apply verify_ledger_empty |].
  destruct (verify_ledger_accepts _ _ _ _ Hl Hne Hv) as (start & w1 & w2 & Hstart & Hfrom).
  assert (start_of allow' l = Some start) as Hstart'.
  { destruct allow, allow'; try done. cbn in Hstart. injection Hstart as <-.
    cbn. destruct l as [|b l]; [done |]. rewrite first_verifiable_cons.
    by rewrite (verify_from_accept_resolves _ _ _ _ _ _ _ 0%nat b Hfrom). }
  apply (verify_ledger_result _ _ _ _ _ _ Hl Hne Hstart'). intros w3.
  destruct strict'.
  - destruct strict; [| done]. by rewrite (verify_from_accept_any _ _ _ _ _ _ _ w3 Hfrom).
  - by rewrite (verify_from_lenient _ _ _ _ _ _ _ w3 Hfrom).
Qed.

(** X3. On a ledger that verifies with [strict_hash = false], the verdict
    with [strict_hash = true] is exactly whether every record from the
    starting position on stores a hash that is not null. *)
Theorem strict_mode_requires_stored_hashes allow w l start :
  fst (load_ledger w) = Ok l ->
  fst (verify_ledger false allow w) = Ok true ->
  start_of allow l = Some start ->
  fst (verify_ledger true allow w) = Ok (forallb stores_hash (drop start l)).
Proof.
  intros Hl%load_ledger_fst Hv Hstart.
  destruct (decide (l = [])) as [-> | Hne].
  { rewrite (verify_ledger_empty _ _ _ Hl). by rewrite drop_nil. }
  destruct (verify_ledger_accepts _ _ _ _ Hl Hne Hv) as (start' & w1 & w2 & Hstart' & Hfrom).
  assert (start' = start) as -> by congruence.
  apply (verify_ledger_result _ _ _ _ _ _ Hl Hne Hstart). intros w3.
  apply (verify_from_strict _ _ _ _ _ _ _ w3 Hfrom).
Qed.

Section Tip.
Implicit Types (w : world) (l : list value) (d : dict).







Lemma first_verifiable_app l : forall i st r,
  first_verifiable i l = Some st -> first_verifiable i (l ++ r) = Some st.
Proof.
  induction l as [|b l IH]; intros i st r H; [discriminate |].
  cbn [app]. rewrite first_verifiable_cons in *.
  destruct (resolves b); [done | eauto].
Qed.

Lemma first_verifiable_lt l : forall i st,
  first_verifiable i l = Some st -> (st < i + length l)%nat.
Proof.
  induction l as [|b l IH]; intros i st; [discriminate |].
  rewrite first_verifiable_cons. cbn [length]. destruct (resolves b).
  - intros [= <-]. lia.
  - intros H%IH. lia.
Qed.

End Tip.


Section Rewriting.
Implicit Types (w : world) (l : list value) (d : dict).

(** The second pass of migration builds what appends would have built. *)
Lemma rewrite_chain_is_chain cleaned : forall i prev new_ledger modified,
  rewrite_chain i prev cleaned = Ok (new_ledger, modified) ->
  exists es,
    new_ledger = chain_of i prev es
    /\ length es = length cleaned
    /\ (modified <= length cleaned)%nat.
Proof.
  induction cleaned as [|d rest IH]; intros i prev nl m H.
  - injection H as <- <-. by exists [].
  - cbn [rewrite_chain] in H.
    destruct (_map_legacy_fields d) as [organ tier].
    destruct (item d "timestamp") as [v|]; [| discriminate H].
    destruct (float v) as [ts|]; [| discriminate H].
    destruct (rewrite_chain (S i) _ rest) as [[nl' m']|] eqn:Hrest; [| discriminate H].
    injection H as <- <-.
    destruct (IH _ _ _ _ Hrest) as (es & -> & Hlen & Hm).
    exists ((str_opt organ, str_opt tier, ts) :: es). cbn [chain_of length].
    split; [reflexivity |]. split; [by rewrite Hlen |].
    destruct (_ || _); lia.
Qed.

Lemma chain_of_canonical es : forall i prev,
  canonical_chain i prev (chain_of i prev es) = true.
Proof.
  induction es as [|[[o t] n] es IH]; intros i prev; [reflexivity |].
  cbn. rewrite Z.eqb_refl, !String.eqb_refl. cbn. apply IH.
Qed.

Lemma start_of_chain allow i prev e es :
  start_of allow (chain_of i prev (e :: es)) = Some 0%nat.
Proof. destruct e as [[o t] n]. by destruct allow. Qed.



End Rewriting.

(** ** Migration, then verification *)

Section Migrated.
Implicit Types (w : world) (l : list value) (d : dict).

Lemma migrate_loaded backup w r w' :
  migrate_ledger_in_place backup w = (Ok r, w') -> exists l, load_ledger w = (Ok l, w).
Proof.
  unfold migrate_ledger_in_place, bind at 1.
  destruct (load_ledger w) as [[l|e] w0] eqn:Hl;
    pose proof (load_ledger_world _ _ _ Hl) as ->; [eauto | discriminate].
Qed.

(** What a return of migrate says about the two stores. *)
Lemma migrate_returns backup w modified quarantined total w' :
  migrate_ledger_in_place backup w = (Ok (modified, quarantined, total), w') ->
  exists l,
    load_ledger w = (Ok l, w)
    /\ total = length l
    /\ quarantined = length (fst (split_blocks 0 l))
    /\ (quarantined <= total)%nat
    /\ if (quarantined <? total)%nat
       then exists e es,
              load_ledger w' = (Ok (chain_of 0 "GENESIS" (e :: es)), w')
              /\ length (e :: es) = (total - quarantined)%nat
              /\ (modified <= total - quarantined)%nat
       else modified = 0%nat /\ files w' !! LEDGER_PATH = files w !! LEDGER_PATH.
Proof.
  intros H. destruct (migrate_loaded _ _ _ _ H) as [l Hl]. exists l. split; [done |].
  destruct (decide (l = [])) as [-> | Hne].
  { unfold migrate_ledger_in_place, bind in H. rewrite Hl in H. cbn in H.
    injection H as <- <- <- <-. cbn. done. }
  rewrite (migrate_eq backup w l Hl Hne) in H.
  pose proof (split_blocks_length l 0) as Hlen.
  destruct (snd (split_blocks 0 l)) as [|c0 c] eqn:Hc.
  - injection H as <- <- <- <-. cbn [length] in Hlen. rewrite Nat.add_0_r in Hlen.
    rewrite Hlen, Nat.ltb_irrefl. cbn [files].
    repeat split; try done. apply after_steps_ledger.
  - destruct (rewrite_chain 0 "GENESIS" (c0 :: c)) as [[nl m]|e] eqn:Hrw; [| discriminate H].
    injection H as <- <- <- <-.
    destruct (rewrite_chain_is_chain _ _ _ _ _ Hrw) as (es & -> & Hes & Hm).
    cbn [length] in *. repeat split; try done; try lia.
    replace (length (fst (split_blocks 0 l)) <? length l)%nat with true
      by (symmetry; apply Nat.ltb_lt; lia).
    destruct es as [|e es]; [discriminate Hes |]. exists e, es.
    split; [| split; cbn [length] in *; lia].
    rewrite load_ledger_eq. cbn [files].
    by rewrite written_lookup by apply ledger_tmp_ne.
Qed.

End Migrated.

(** X5. When [migrate_ledger_in_place] returns having kept at least one
    record, the ledger it wrote is accepted by [verify_ledger] in every
    mode. *)
Theorem migrated_ledger_verifies backup strict allow w modified quarantined total w' :
  migrate_ledger_in_place backup w = (Ok (modified, quarantined, total), w') ->
  (quarantined < total)%nat ->
  fst (verify_ledger strict allow w') = Ok true.
Proof.
  intros H Hlt. destruct (migrate_returns _ _ _ _ _ _ H) as (l & _ & _ & _ & _ & Hafter).
  apply Nat.ltb_lt in Hlt. rewrite Hlt in Hafter.
  destruct Hafter as (e & es & Hl' & _ & _).
  apply (verify_ledger_result _ _ _ _ 0%nat _ Hl'); [by destruct e as [[? ?] ?] | |].
  - apply start_of_chain.
  - intros w1. change (drop 0 ?x) with x.
    by rewrite (verify_from_chain strict (e :: es) 0 "GENESIS" None w1 (or_introl eq_refl)).
Qed.

(** X6. After a migration that kept at least one record, a second
    migration modifies and quarantines nothing, and counts the records
    the first one kept. *)
Theorem migrate_twice_changes_nothing
    backup backup' w modified quarantined total w' :
  migrate_ledger_in_place backup w = (Ok (modified, quarantined, total), w') ->
  (quarantined < total)%nat ->
  fst (migrate_ledger_in_place backup' w') = Ok (0, 0, total - quarantined)%nat.
Proof.
  intros H Hlt. destruct (migrate_returns _ _ _ _ _ _ H) as (l & _ & _ & _ & _ & Hafter).
  apply Nat.ltb_lt in Hlt. rewrite Hlt in Hafter.
  destruct Hafter as (e & es & Hl' & Hlen & _).
  assert (chain_of 0 "GENESIS" (e :: es) <> []) as Hne by (by destruct e as [[? ?] ?]).
  rewrite (migrate_eq backup' w' _ Hl' Hne).
  destruct (canonical_chain_migrates _ 0 0 _ (chain_of_canonical (e :: es) 0 "GENESIS"))
    as (Hq & Hc & nl & Hrw).
  rewrite Hq, length_chain_of, Hlen in *.
  destruct (snd (split_blocks 0 (chain_of 0 "GENESIS" (e :: es)))) as [|c0 c].
  - cbn in Hc, Hlen. lia.
  - by rewrite Hrw.
Qed.

(** X7. The counts [migrate_ledger_in_place] returns: the total is the
    length of the ledger it read, the quarantined count the number of
    records that fail the minimum-fields test, the modified count at most
    the number of records kept; the ledger afterwards holds the records
    kept, or all of them when none could be kept. *)
Theorem migrate_accounts_for_every_record backup w modified quarantined total w' :
  migrate_ledger_in_place backup w = (Ok (modified, quarantined, total), w') ->
  exists l new_ledger,
    fst (load_ledger w) = Ok l
    /\ fst (load_ledger w') = Ok new_ledger
    /\ total = length l
    /\ quarantined = length (newly_quarantined w)
    /\ (modified <= total - quarantined)%nat
    /\ length new_ledger =
       (if (quarantined <? total)%nat then total - quarantined else total)%nat.
Proof.
  intros H.
  destruct (migrate_returns _ _ _ _ _ _ H) as (l & Hl & Ht & Hq & Hle & Hafter).
  unfold newly_quarantined. rewrite Hl. cbn [fst].
  destruct (quarantined <? total)%nat.
  - destruct Hafter as (e & es & Hl' & Hlen & Hm).
    exists l, (chain_of 0 "GENESIS" (e :: es)). rewrite Hl'. cbn [fst].
    by rewrite length_chain_of.
  - destruct Hafter as [-> Hsame]. exists l, l.
    repeat split; try done; try lia.
    rewrite load_ledger_eq in Hl |- *. rewrite Hsame.
    destruct (files w !! LEDGER_PATH) as [[raw|[]]|]; cbn in *; congruence.
Qed.

(** ** The skipped prefix *)

Section Verdicts.
Implicit Types (w : world) (l : list value) (d : dict).

(** The verdict on a record does not depend on the world. *)
Lemma verify_block_fst strict start i pe b w w2 :
  fst (verify_block strict start i pe b w) = fst (verify_block strict start i pe b w2).
Proof.
  unfold verify_block, bind, lift, print, ret.
  repeat (case_match; cbn [fst snd]; try reflexivity); simplify_eq; reflexivity.
Qed.

Lemma verify_from_fst strict start blocks : forall i pe w w2,
  fst (verify_from strict start i pe blocks w) = fst (verify_from strict start i pe blocks w2).
Proof.
  induction blocks as [|b rest IH]; intros i pe w w2; [reflexivity |].
  cbn [verify_from]. unfold bind.
  pose proof (verify_block_fst strict start i pe b w w2) as Hb.
  destruct (verify_block strict start i pe b w) as [[[h|]|e] w1],
           (verify_block strict start i pe b w2) as [[[h2|]|e2] w3];
    cbn [fst] in Hb; try discriminate Hb; try (injection Hb as <-); try done.
Qed.

(** The verdict of [verify_ledger] is the verdict of its loop. *)
Lemma verify_ledger_fst strict allow w l w0 :
  load_ledger w = (Ok l, w) -> l <> [] ->
  fst (verify_ledger strict allow w) =
  match start_of allow l with
  | None => Ok false
  | Some start => fst (verify_from strict start start None (drop start l) w0)
  end.
Proof.
  intros Hl Hne. rewrite (verify_ledger_eq _ _ _ _ Hl Hne).
  destruct (start_of allow l) as [start|]; [| reflexivity]. cbn zeta.
  match goal with |- context [verify_from _ _ _ _ _ ?w1] =>
    rewrite (verify_from_fst strict start (drop start l) start None w0 w1);
    destruct (verify_from strict start start None (drop start l) w1) as [[[|]|e] w2] end;
    reflexivity.
Qed.

Lemma first_verifiable_none l : forall i,
  forallb (fun b => negb (resolves b)) l = true -> first_verifiable i l = None.
Proof.
  induction l as [|b l IH]; intros i H; [reflexivity |].
  cbn [forallb] in H. apply andb_prop in H as [Hb Hr].
  rewrite first_verifiable_cons. apply negb_true_iff in Hb. rewrite Hb. by apply IH.
Qed.

Lemma first_verifiable_skip prefix : forall i l,
  forallb (fun b => negb (resolves b)) prefix = true ->
  first_verifiable i (prefix ++ l) = first_verifiable (i + length prefix) l.
Proof.
  induction prefix as [|b prefix IH]; intros i l H; cbn [app length].
  - by rewrite Nat.add_0_r.
  - cbn [forallb] in H. apply andb_prop in H as [Hb Hr].
    rewrite first_verifiable_cons. apply negb_true_iff in Hb. rewrite Hb.
    rewrite IH by done. by rewrite Nat.add_succ_r.
Qed.

End Verdicts.

(** X8. With [allow_legacy_prefix = true] the verdict of [verify_ledger]
    does not depend on what the skipped records are, only on how many
    there are: two unverifiable prefixes of the same length before the
    same records give the same result. *)
Theorem skipped_prefix_is_ignored strict w w' prefix prefix' l :
  fst (load_ledger w) = Ok (prefix ++ l) ->
  fst (load_ledger w') = Ok (prefix' ++ l) ->
  length prefix = length prefix' ->
  forallb (fun b => negb (resolves b)) prefix = true ->
  forallb (fun b => negb (resolves b)) prefix' = true ->
  fst (verify_ledger strict true w) = fst (verify_ledger strict true w').
Proof.
  intros Hl%load_ledger_fst Hl'%load_ledger_fst Hlen Hp Hp'.
  destruct (decide (prefix ++ l = [])) as [E | Hne].
  { apply app_eq_nil in E as [-> ->]. destruct prefix'; [| discriminate Hlen].
    by rewrite !verify_ledger_empty. }
  assert (prefix' ++ l <> []) as Hne'.
  { intros E. apply app_eq_nil in E as [-> ->]. destruct prefix; [done | discriminate Hlen]. }
  rewrite (verify_ledger_fst _ _ _ _ w Hl Hne), (verify_ledger_fst _ _ _ _ w Hl' Hne').
  cbn [start_of]. rewrite !first_verifiable_skip by done. rewrite <- Hlen. cbn [Nat.add].
  destruct (first_verifiable (length prefix) l) as [start|] eqn:Hs; [| reflexivity].
  apply first_verifiable_ge in Hs.
  rewrite !drop_app_ge by lia. by rewrite <- Hlen.
Qed.

(** X9. A non-empty ledger none of whose records passes the
    minimum-fields test is rejected in every mode: with
    [allow_legacy_prefix = true] by the notice that no verifiable block
    was found, and nothing else printed; with [allow_legacy_prefix =
    false] [verify_ledger] does not return true either. *)
Theorem unverifiable_ledger_is_rejected strict w l :
  fst (load_ledger w) = Ok l ->
  l <> [] ->
  forallb (fun b => negb (resolves b)) l = true ->
  verify_ledger strict true w = (Ok false, printed NoVerifiableBlocks w)
  /\ fst (verify_ledger strict false w) <> Ok true.
Proof.
  intros Hl%load_ledger_fst Hne Hall. split.
  - rewrite (verify_ledger_eq _ _ _ _ Hl Hne). cbn [start_of].
    by rewrite first_verifiable_none.
  - intros Hv.
    destruct (verify_ledger_accepts _ _ _ _ Hl Hne Hv) as (start & w1 & w2 & [= <-] & Hfrom).
    destruct l as [|b l]; [done |]. cbn [forallb] in Hall. apply andb_prop in Hall as [Hb _].
    rewrite (verify_from_accept_resolves _ _ _ _ _ _ _ 0%nat b Hfrom) in Hb; done.
Qed.

(** ** Where the operations raise *)

Section Raising.
Implicit Types (w : world) (l : list value) (d : dict).

(** An accepted run, then more records. *)
Lemma verify_from_app strict start blocks : forall i pe w w' rest w2,
  verify_from strict start i pe blocks w = (Ok true, w') ->
  blocks <> [] ->
  exists h,
    verify_from strict start i pe (blocks ++ rest) w2 =
    verify_from strict start (i + length blocks) (Some h) rest w2.
Proof.
  induction blocks as [|b tl IH]; intros i pe w w' rest w2 H Hne; [done |].
  apply verify_from_cons_inv in H as (h & Hb & H).
  cbn [app verify_from length]. unfold bind at 1.
  rewrite (verify_block_accept_any _ _ _ _ _ _ _ _ w2 Hb). cbn beta iota.
  destruct tl as [|b' tl'].
  - exists h. cbn [app length]. by rewrite Nat.add_1_r.
  - destruct (IH (S i) (Some h) w w' rest w2 H) as [h' Hh']; [done |].
    exists h'. rewrite Hh'. by rewrite Nat.add_succ_r.
Qed.

Lemma verify_block_bad_index strict start i pe d w e :
  int (get_or d "index" (VInt (Z.of_nat i))) = Raise e ->
  verify_block strict start i pe (VDict d) w = (Raise e, w).
Proof. intros H. unfold verify_block, bind, lift. by rewrite H. Qed.




End Raising.

(** X10. The conversion of a record's index is not guarded: when the
    records before an object are accepted and [int] raises on its
    [index], [verify_ledger] raises that exception instead of returning
    false. *)
Theorem verify_raises_on_bad_index strict allow w w' l d post e :
  fst (load_ledger w) = Ok l ->
  fst (verify_ledger strict allow w) = Ok true ->
  fst (load_ledger w') = Ok (l ++ VDict d :: post) ->
  l <> [] \/ allow = false \/ resolves (VDict d) = true ->
  int (get_or d "index" (VInt (Z.of_nat (length l)))) = Raise e ->
  fst (verify_ledger strict allow w') = Raise e.
Proof.
  intros Hl%load_ledger_fst Hv Hl'%load_ledger_fst Hside Hidx.
  assert (l ++ VDict d :: post <> []) as Hne' by (by destruct l).
  rewrite (verify_ledger_fst _ _ _ _ w Hl' Hne').
  destruct (decide (l = [])) as [-> | Hne].
  - cbn [app length] in *.
    assert (start_of allow (VDict d :: post) = Some 0%nat) as ->.
    { destruct Hside as [? | [-> | Hr]]; [done | done |].
      destruct allow; [| done]. cbn [start_of]. by rewrite first_verifiable_cons, Hr. }
    change (drop 0 ?x) with x. cbn [verify_from]. unfold bind at 1.
    by rewrite (verify_block_bad_index _ _ _ _ _ _ _ Hidx).
  - destruct (verify_ledger_accepts _ _ _ _ Hl Hne Hv) as (start & w1 & w2 & Hstart & Hfrom).
    assert (start < length l)%nat as Hlt.
    { destruct allow; cbn in Hstart.
      - by apply first_verifiable_lt in Hstart.
      - injection Hstart as <-. destruct l; [done | cbn; lia]. }
    assert (start_of allow (l ++ VDict d :: post) = Some start) as ->.
    { destruct allow; cbn in *; [by apply first_verifiable_app | done]. }
    rewrite drop_app_le by lia.
    destruct (verify_from_app _ _ _ _ _ _ _ (VDict d :: post) w Hfrom) as [h Hh].
    { intros E. apply (f_equal length) in E. rewrite length_drop in E. cbn in E. lia. }
    rewrite Hh, length_drop. replace (start + (length l - start))%nat with (length l) by lia.
    cbn [verify_from]. unfold bind at 1.
    by rewrite (verify_block_bad_index _ _ _ _ _ _ _ Hidx).
Qed.


(** ** Backup, quarantine and the files written *)

Section Files.
Implicit Types (w : world) (l : list value) (d : dict).

Lemma after_steps_bak backup q w text :
  files w !! LEDGER_PATH = Some text ->
  files (after_quarantine q (after_backup backup w)) !! with_suffix LEDGER_PATH ".bak" =
  if backup then Some text else files w !! with_suffix LEDGER_PATH ".bak".
Proof.
  intros Htext.
  assert (files (after_backup backup w) !! with_suffix LEDGER_PATH ".bak" =
          if backup then Some text else files w !! with_suffix LEDGER_PATH ".bak") as Hb.
  { unfold after_backup. rewrite Htext. destruct backup; [| done]. cbn [files].
    by rewrite written_lookup by apply bak_tmp_ne. }
  unfold after_quarantine. destruct q; [done |]. cbn [files].
  by rewrite written_lookup_ne by discriminate.
Qed.



End Files.

(** X12. On a non-empty ledger, migration with [backup = true] leaves in
    [ledger.json.bak] the text the ledger file had before the call,
    whatever happens afterwards; with [backup = false] the backup file is
    not touched. *)
Theorem migrate_backup_is_exact_copy w l :
  fst (load_ledger w) = Ok l ->
  l <> [] ->
  files (snd (migrate_ledger_in_place true w)) !! with_suffix LEDGER_PATH ".bak"
  = files w !! LEDGER_PATH
  /\ files (snd (migrate_ledger_in_place false w)) !! with_suffix LEDGER_PATH ".bak"
     = files w !! with_suffix LEDGER_PATH ".bak".
Proof.
  intros Hl%load_ledger_fst Hne.
  assert (exists text, files w !! LEDGER_PATH = Some text) as [text Htext].
  { rewrite load_ledger_eq in Hl. destruct (files w !! LEDGER_PATH); [by eexists |].
    by injection Hl. }
  assert (forall backup,
            files (snd (migrate_ledger_in_place backup w)) !! with_suffix LEDGER_PATH ".bak"
            = if backup then Some text else files w !! with_suffix LEDGER_PATH ".bak") as H.
  { intros backup. rewrite (migrate_eq backup w l Hl Hne).
    pose proof (after_steps_bak backup (fst (split_blocks 0 l)) w text Htext) as Hb.
    destruct (snd (split_blocks 0 l)) as [|c0 c]; cbn [snd files]; [exact Hb |].
    destruct (rewrite_chain 0 "GENESIS" (c0 :: c)) as [[nl m]|e]; cbn [snd files];
      [| exact Hb].
    by rewrite written_lookup_ne by discriminate. }
  rewrite !H. by rewrite Htext.
Qed.




Section Fields.
Implicit Types (d : dict).

Lemma truthy_not_none v : truthy v = true -> is_none v = false.
Proof. by destruct v. Qed.

Lemma py_or_none a b : is_none (py_or a b) = negb (truthy a) && is_none b.
Proof.
  unfold py_or. destruct (truthy a) eqn:Ha; [| done]. by rewrite (truthy_not_none _ Ha).
Qed.

Lemma truthy_py_or a b : truthy (py_or a b) = truthy a || truthy b.
Proof. unfold py_or. by destruct (truthy a) eqn:Ha; rewrite ?Ha. Qed.

(** When the fallback chain of [_map_legacy_fields] ends in None. *)
Lemma fallback_none o a b c e :
  is_none (if is_none o then py_or (py_or (py_or a b) c) e else o) =
  is_none o && negb (truthy a) && negb (truthy b) && negb (truthy c) && is_none e.
Proof.
  destruct (is_none o) eqn:Ho; [| by rewrite Ho].
  rewrite py_or_none, !truthy_py_or.
  by destruct (truthy a), (truthy b), (truthy c).
Qed.

End Fields.

(** X16. Which objects have an organ, a tier and a timestamp after
    [_map_legacy_fields]: a value under [organ] that is not null counts
    even when it is falsy, the fallbacks [name], [organ_name] and
    [service] count only when truthy, the last fallback [module] whenever
    it is not null; the same for the tier. *)
Theorem resolves_exactly d :
  resolves (VDict d) =
  negb (organ_missing d) && negb (tier_missing d) && dict_has "timestamp" d.
Proof.
  unfold resolves, _map_legacy_fields, organ_missing, tier_missing, str_if_not_none.
  rewrite !fallback_none.
  destruct (is_none (get d "organ") && _ && _ && _ && _),
           (is_none (get d "tier") && _ && _ && _ && _); reflexivity.
Qed.

(** ** The digest *)

Section Digest.

Lemma hex_digit_lower x : 0 <= x < 16 -> lower_hex (Sha256.hex_digit x) = true.
Proof.
  intros H.
  assert (x = 0 \/ x = 1 \/ x = 2 \/ x = 3 \/ x = 4 \/ x = 5 \/ x = 6 \/ x = 7 \/
          x = 8 \/ x = 9 \/ x = 10 \/ x = 11 \/ x = 12 \/ x = 13 \/ x = 14 \/ x = 15)
    as Hx by lia.
  repeat (destruct Hx as [-> | Hx]; [reflexivity |]). by subst.
Qed.

Lemma nib_lower w i : lower_hex (Sha256.nib w i) = true.
Proof.
  unfold Sha256.nib. apply hex_digit_lower.
  change 0xf with (Z.ones 4). rewrite Z.land_ones by lia.
  apply Z.mod_pos_bound. lia.
Qed.

Lemma hex8_lower w k :
  forallb lower_hex (list_ascii_of_string k) = true ->
  forallb lower_hex (list_ascii_of_string (Sha256.hex8 w k)) = true.
Proof.
  intros Hk. unfold Sha256.hex8. cbn [list_ascii_of_string forallb].
  by rewrite !nib_lower, Hk.
Qed.

End Digest.

(** X17. [hash_block] returns 64 lower-case hexadecimal digits, whatever
    the block. *)
Theorem hash_block_is_hex_digest (block : dict) :
  String.length (hash_block block) = 64%nat
  /\ forallb lower_hex (list_ascii_of_string (hash_block block)) = true.
Proof.
  split; [reflexivity |].
  unfold hash_block, Sha256.hexdigest. cbn zeta.
  repeat apply hex8_lower. reflexivity.
Qed.

Section KeyOrder.

Lemma ascii_compare_lt_trans a b c :
  Ascii.compare a b = Lt -> Ascii.compare b c = Lt -> Ascii.compare a c = Lt.
Proof.
  unfold Ascii.compare. rewrite !N.compare_lt_iff. lia.
Qed.

Lemma string_compare_lt_trans s1 : forall s2 s3,
  String.compare s1 s2 = Lt -> String.compare s2 s3 = Lt -> String.compare s1 s3 = Lt.
Proof.
  induction s1 as [|a s1 IH]; intros [|b s2] [|c s3]; cbn; try done.
  destruct (Ascii.compare a b) eqn:Hab; try done;
    destruct (Ascii.compare b c) eqn:Hbc; try done.
  - apply Ascii.compare_eq_iff in Hab as ->, Hbc as ->.
    assert (Ascii.compare c c = Eq) as ->; [| apply IH].
    unfold Ascii.compare. apply N.compare_refl.
  - apply Ascii.compare_eq_iff in Hab as ->. by rewrite Hbc.
  - apply Ascii.compare_eq_iff in Hbc as ->. by rewrite Hab.
  - by rewrite (ascii_compare_lt_trans _ _ _ Hab Hbc).
Qed.

Lemma string_leb_lt s1 s2 :
  String.leb s1 s2 = true <-> String.compare s1 s2 = Lt \/ s1 = s2.
Proof.
  unfold String.leb. split.
  - destruct (String.compare s1 s2) eqn:E; try done; [| by left].
    right. by apply String.compare_eq_iff.
  - intros [-> | ->]; [done |].
    assert (String.compare s2 s2 = Eq) as ->; [| done].
    pose proof (String.compare_antisym s2 s2) as H.
    by destruct (String.compare s2 s2).
Qed.

Lemma string_leb_trans s1 s2 s3 :
  String.leb s1 s2 = true -> String.leb s2 s3 = true -> String.leb s1 s3 = true.
Proof.
  rewrite !string_leb_lt. intros [H1 | ->] [H2 | ->]; auto.
  left. by eapply string_compare_lt_trans.
Qed.

(** Two insertions with different keys commute. *)
Lemma insert_sorted_comm_le a b l :
  fst a <> fst b ->
  String.leb (fst a) (fst b) = true ->
  insert_sorted a (insert_sorted b l) = insert_sorted b (insert_sorted a l).
Proof.
  intros Hne Hab.
  assert (String.leb (fst b) (fst a) = false) as Hba.
  { destruct (String.leb (fst b) (fst a)) eqn:E; [| done].
    destruct Hne. by apply String.leb_antisym. }
  induction l as [|c l IH]; cbn [insert_sorted].
  - by rewrite Hab, Hba.
  - destruct (String.leb (fst b) (fst c)) eqn:Hbc.
    + rewrite (string_leb_trans _ _ _ Hab Hbc). cbn [insert_sorted].
      by rewrite Hab, Hba, Hbc.
    + destruct (String.leb (fst a) (fst c)) eqn:Hac; cbn [insert_sorted].
      * by rewrite Hac, Hba, Hbc.
      * by rewrite Hac, Hbc, IH.
Qed.

Lemma insert_sorted_comm a b l :
  fst a <> fst b ->
  insert_sorted a (insert_sorted b l) = insert_sorted b (insert_sorted a l).
Proof.
  intros Hne. destruct (String.leb_total (fst a) (fst b)) as [H | H].
  - by apply insert_sorted_comm_le.
  - symmetry. by apply insert_sorted_comm_le.
Qed.

Lemma sort_items_perm (l l' : list (string * string)) :
  l ≡ₚ l' -> NoDup (l.*1) -> sort_items l = sort_items l'.
Proof.
  unfold sort_items. induction 1 as [| x l l' Hp IH | x y l | l l' l'' Hp IH Hp' IH'];
    intros Hnd; cbn [fold_right].
  - reflexivity.
  - cbn in Hnd. apply NoDup_cons in Hnd as [_ Hnd]. by rewrite IH.
  - cbn in Hnd. apply NoDup_cons in Hnd as [Hy _].
    apply insert_sorted_comm. intros E. apply Hy. rewrite E. apply list_elem_of_here.
  - rewrite IH by done. apply IH'. by rewrite <- Hp.
Qed.

End KeyOrder.

(** X18. [hash_block] does not depend on the order of the keys of the
    block: two dictionaries with the same items hash alike. *)
Theorem hash_block_ignores_key_order (block block' : dict) :
  block ≡ₚ block' ->
  NoDup (block.*1) ->
  hash_block block = hash_block block'.
Proof.
  intros Hp Hnd. unfold hash_block. cbn [json_dumps].
  rewrite (sort_items_perm _ (map (fun kv => (kv.1, json_dumps kv.2)) block')); [done | |].
  - by apply fmap_Permutation.
  - by rewrite <- list_fmap_compose.
Qed.

Section Minimum.

Lemma chain_of_minimum_fields es : forall i prev,
  Forall (fun b => match b with
                   | VDict d => _has_minimum_fields_for_hash d = true
                   | _ => False
                   end) (chain_of i prev es).
Proof.
  induction es as [|[[o t] n] es IH]; intros i prev; cbn [chain_of]; constructor.
  - reflexivity.
  - apply IH.
Qed.

End Minimum.

(** X19. Every record of a migrated ledger is an object that passes
    [_has_minimum_fields_for_hash]. *)
Theorem migrated_records_have_minimum_fields backup w modified quarantined total w' :
  migrate_ledger_in_place backup w = (Ok (modified, quarantined, total), w') ->
  (quarantined < total)%nat ->
  exists new_ledger,
    fst (load_ledger w') = Ok new_ledger
    /\ Forall (fun b => match b with
                        | VDict d => _has_minimum_fields_for_hash d = true
                        | _ => False
                        end) new_ledger.
Proof.
  intros H Hlt. destruct (migrate_returns _ _ _ _ _ _ H) as (l & _ & _ & _ & _ & Hafter).
  apply Nat.ltb_lt in Hlt. rewrite Hlt in Hafter.
  destruct Hafter as (e & es & Hl' & _ & _).
  eexists. rewrite Hl'. split; [reflexivity |]. apply chain_of_minimum_fields.
Qed.

(** ** What is printed *)

Section Notices.
Implicit Types (w : world) (l : list value) (d : dict).

(** A record the loop turns down is reported, with its position. *)
Lemma verify_block_reject strict start i pe b w w' :
  verify_block strict start i pe b w = (Ok None, w') ->
  exists m, w' = printed m w /\ is_acceptance m = false /\ position_of m = Some i.
Proof.
  unfold verify_block, bind, lift, print, ret, printed.
  repeat (case_match; try discriminate); intros [= <-]; eexists; repeat split.
Qed.

Lemma verify_from_reject strict start blocks : forall i pe w w',
  verify_from strict start i pe blocks w = (Ok false, w') ->
  exists m k,
    w' = printed m w /\ is_acceptance m = false
    /\ position_of m = Some k /\ (i <= k < i + length blocks)%nat.
Proof.
  induction blocks as [|b rest IH]; intros i pe w w' H; [discriminate H |].
  cbn [verify_from] in H. unfold bind at 1 in H.
  destruct (verify_block strict start i pe b w) as [[[h|]|e] w1] eqn:Hb.
  - destruct (verify_block_accept _ _ _ _ _ _ _ _ Hb) as [-> _].
    destruct (IH _ _ _ _ H) as (m & k & -> & Hm & Hk & Hin).
    exists m, k. cbn [length]. repeat split; try done; lia.
  - injection H as <-.
    destruct (verify_block_reject _ _ _ _ _ _ _ Hb) as (m & -> & Hm & Hk).
    exists m, i. cbn [length]. repeat split; try done; lia.
  - discriminate H.
Qed.

End Notices.

(** X20. When [verify_ledger] returns, the last line it printed tells the
    result: the empty-ledger or integrity-verified notice with true, a
    notice of rejection with false, naming a position inside the ledger
    when it names one. Before it at most the notice of a skipped prefix
    was printed. *)
Theorem verify_announces_verdict strict allow w b w' :
  verify_ledger strict allow w = (Ok b, w') ->
  exists pre m,
    stdout w' = stdout w ++ pre ++ [m]
    /\ (pre = [] \/ exists start, allow = true /\ (0 < start)%nat /\ pre = [SkippingLegacy start])
    /\ is_acceptance m = b
    /\ forall l k, fst (load_ledger w) = Ok l -> position_of m = Some k -> (k < length l)%nat.
Proof.
  intros H.
  destruct (verify_ledger_loaded strict allow w b) as [l Hl]; [by rewrite H |].
  assert (forall l', fst (load_ledger w) = Ok l' -> l' = l) as Hsame.
  { intros l' E. rewrite Hl in E. by injection E. }
  destruct (decide (l = [])) as [-> | Hne].
  { unfold verify_ledger, bind at 1 in H. rewrite Hl in H. injection H as <- <-.
    exists [], LedgerEmpty. repeat split; [by left | done]. }
  rewrite (verify_ledger_eq _ _ _ _ Hl Hne) in H.
  destruct (start_of allow l) as [start|] eqn:Hstart.
  2: { injection H as <- <-. exists [], NoVerifiableBlocks. repeat split; [by left | done]. }
  cbn zeta in H.
  set (w1 := if allow && (0 <? start)%nat then printed (SkippingLegacy start) w else w) in H.
  assert (exists pre, stdout w1 = stdout w ++ pre /\ files w1 = files w
            /\ (pre = [] \/ exists start, allow = true /\ (0 < start)%nat
                                          /\ pre = [SkippingLegacy start]))
    as (pre & Hout & _ & Hpre).
  { unfold w1. destruct allow; cbn [andb].
    - destruct (0 <? start)%nat eqn:E.
      + exists [SkippingLegacy start]. repeat split. right. exists start.
        apply Nat.ltb_lt in E. done.
      + exists []. rewrite app_nil_r. repeat split. by left.
    - exists []. rewrite app_nil_r. repeat split. by left. }
  destruct (verify_from strict start start None (drop start l) w1) as [[[|]|e] w2] eqn:Hfrom;
    [| | discriminate H]; injection H as <- <-.
  - apply verify_from_accept_world in Hfrom as ->.
    exists pre, IntegrityVerified. cbn [stdout printed]. rewrite Hout, <- app_assoc.
    repeat split; done.
  - destruct (verify_from_reject _ _ _ _ _ _ _ Hfrom) as (m & k & -> & Hm & Hk & Hin).
    exists pre, m. cbn [stdout printed]. rewrite Hout, <- app_assoc.
    repeat split; try done.
    intros l' k' ->%Hsame Hk'. rewrite Hk in Hk'. injection Hk' as <-.
    rewrite length_drop in Hin.
    destruct (decide (start <= length l)%nat); [lia |].
    rewrite drop_ge in Hfrom by lia. discriminate Hfrom.
Qed.

(** X21. What [migrate_ledger_in_place] prints when it returns, from its
    result alone: on an empty ledger the nothing-to-migrate notice;
    otherwise the backup notice when a backup was asked for, the
    quarantine notice with the quarantined count when it is positive, and
    last the completion notice with the number of records kept, or the
    no-migratable-blocks notice when none was kept. *)
Theorem migrate_reports_its_counts backup w modified quarantined total w' :
  migrate_ledger_in_place backup w = (Ok (modified, quarantined, total), w') ->
  stdout w' =
  stdout w ++
  (if (0 <? total)%nat
   then (if backup then [BackupWritten (with_suffix LEDGER_PATH ".bak")] else [])
        ++ (if (0 <? quarantined)%nat then [Quarantined quarantined] else [])
        ++ [if (quarantined <? total)%nat
            then MigrationComplete (total - quarantined)
            else NoMigratableBlocks]
   else [NothingToMigrate]).
Proof.
  intros H. destruct (migrate_loaded _ _ _ _ H) as [l Hl].
  destruct (decide (l = [])) as [-> | Hne].
  { unfold migrate_ledger_in_place, bind in H. rewrite Hl in H. cbn in H.
    by injection H as <- <- <- <-. }
  assert (exists text, files w !! LEDGER_PATH = Some text) as [text Htext].
  { rewrite load_ledger_eq in Hl. destruct (files w !! LEDGER_PATH); [by eexists |].
    by injection Hl. }
  rewrite (migrate_eq backup w l Hl Hne) in H.
  pose proof (split_blocks_length l 0) as Hlen.
  assert (stdout (after_quarantine (fst (split_blocks 0 l)) (after_backup backup w)) =
          stdout w
          ++ (if backup then [BackupWritten (with_suffix LEDGER_PATH ".bak")] else [])
          ++ (if (0 <? length (fst (split_blocks 0 l)))%nat
              then [Quarantined (length (fst (split_blocks 0 l)))] else [])) as Hout.
  { unfold after_quarantine, after_backup. rewrite Htext.
    destruct (fst (split_blocks 0 l)) as [|q0 q], backup; cbn [stdout length Nat.ltb Nat.leb];
      by rewrite ?app_nil_r, <- ?app_assoc. }
  assert ((0 <? length l)%nat = true) as Htotal.
  { apply Nat.ltb_lt. destruct l; [done | cbn; lia]. }
  destruct (snd (split_blocks 0 l)) as [|c0 c] eqn:Hc.
  - injection H as <- <- <- <-. cbn [length] in Hlen. rewrite Nat.add_0_r in Hlen.
    rewrite Htotal. rewrite Hlen at 3. rewrite Nat.ltb_irrefl.
    cbn [stdout]. rewrite Hout. by rewrite <- !app_assoc.
  - destruct (rewrite_chain 0 "GENESIS" (c0 :: c)) as [[nl m]|e] eqn:Hrw; [| discriminate H].
    injection H as <- <- <- <-.
    destruct (rewrite_chain_is_chain _ _ _ _ _ Hrw) as (es & -> & Hes & Hm).
    rewrite Htotal, length_chain_of, Hes.
    replace (length (fst (split_blocks 0 l)) <? length l)%nat with true
      by (symmetry; apply Nat.ltb_lt; cbn [length] in Hlen; lia).
    replace (length l - length (fst (split_blocks 0 l)))%nat with (length (c0 :: c)) by lia.
    cbn [stdout]. rewrite Hout. by rewrite <- !app_assoc.
Qed.

(** X22. When [load_ledger] raises, each of the three public operations
    raises the same exception and leaves the store and the output as they
    were. *)
Theorem malformed_ledger_stops_everything w e :
  fst (load_ledger w) = Raise e ->
  (forall organ tier now, append_ledger_entry organ tier now w = (Raise e, w))
  /\ (forall strict allow, verify_ledger strict allow w = (Raise e, w))
  /\ (forall backup, migrate_ledger_in_place backup w = (Raise e, w)).
Proof.
  intros H. destruct (load_ledger w) as [r w0] eqn:Hl.
  pose proof (load_ledger_world _ _ _ Hl) as ->. cbn in H. subst r.
  repeat split; intros;
    unfold append_ledger_entry, verify_ledger, migrate_ledger_in_place, bind;
    by rewrite Hl.
Qed.

(** X23. [_load_json_list] on the ledger path does what [load_ledger]
    does, but for the malformed-ledger error: it returns the list
    [load_ledger] returns, the empty list where [load_ledger] raises its
    [RuntimeError], and raises what [load_ledger] raises otherwise:
    [UnicodeDecodeError], [ValueError] or [RecursionError] pass through
    its handler as well. *)
Theorem lenient_loader_agrees depth_left (d : Disk.disk) :
  Disk._load_json_list depth_left LEDGER_PATH d =
  match Disk.load_ledger depth_left d with
  | Ok l => Ok l
  | Raise (RuntimeError _) => Ok []
  | Raise e => Raise e
  end.
Proof.
  unfold Disk._load_json_list, Disk.load_ledger, Disk.path_exists, Disk.read_text.
  destruct (d !! LEDGER_PATH) as [[|[[raw|doc]|which]]|]; cbn; try reflexivity.
  - destruct (Disk.scan depth_left doc) as [which|]; [by destruct which |].
    by destruct doc.
  - by destruct which.
Qed.


(** ** Instances of the properties above *)

Lemma verify_modes_monotone_witness :
  fst (verify_ledger true false (store_of two_block_chain)) = Ok true
  /\ fst (verify_ledger false true (store_of two_block_chain)) = Ok true.
Proof.
  split; [vm_compute; reflexivity |].
  apply (verify_modes_monotone true false false true (store_of two_block_chain));
    [vm_compute; reflexivity | reflexivity | reflexivity].
Defined.

Lemma strict_mode_requires_stored_hashes_witness :
  fst (verify_ledger false true (store_of (scenario_ledger "guardian" "P1" t1001))) = Ok true
  /\ fst (verify_ledger true true (store_of (scenario_ledger "guardian" "P1" t1001)))
     = Ok false.
Proof.
  split; [vm_compute; reflexivity |].
  apply (strict_mode_requires_stored_hashes true
           (store_of (scenario_ledger "guardian" "P1" t1001))
           (scenario_ledger "guardian" "P1" t1001) 0);
    vm_compute; reflexivity.
Defined.


Lemma migrated_ledger_verifies_witness :
  fst (migrate_ledger_in_place true (store_of mixed_ledger)) = Ok (1, 1, 2)%nat
  /\ fst (verify_ledger true false (snd (migrate_ledger_in_place true (store_of mixed_ledger))))
     = Ok true.
Proof.
  split; [vm_compute; reflexivity |].
  apply (migrated_ledger_verifies true true false (store_of mixed_ledger) 1 1 2);
    [vm_compute; reflexivity | lia].
Defined.

Lemma migrate_twice_changes_nothing_witness :
  fst (migrate_ledger_in_place true (store_of mixed_ledger)) = Ok (1, 1, 2)%nat
  /\ fst (migrate_ledger_in_place false
            (snd (migrate_ledger_in_place true (store_of mixed_ledger))))
     = Ok (0, 0, 1)%nat.
Proof.
  split; [vm_compute; reflexivity |].
  apply (migrate_twice_changes_nothing true false (store_of mixed_ledger) 1 1 2);
    [vm_compute; reflexivity | lia].
Defined.

Lemma migrate_accounts_for_every_record_witness :
  exists l new_ledger,
    fst (load_ledger (store_of mixed_ledger)) = Ok l
    /\ fst (load_ledger (snd (migrate_ledger_in_place true (store_of mixed_ledger))))
       = Ok new_ledger
    /\ 2%nat = length l
    /\ 1%nat = length (newly_quarantined (store_of mixed_ledger))
    /\ (1 <= 2 - 1)%nat
    /\ length new_ledger = 1%nat.
Proof.
  apply (migrate_accounts_for_every_record true (store_of mixed_ledger) 1 1 2).
  vm_compute; reflexivity.
Defined.

Lemma skipped_prefix_is_ignored_witness :
  fst (verify_ledger true true (store_of ([VStr "junk"] ++ two_block_chain)))
  = fst (verify_ledger true true (store_of ([VDict [("x", VInt 1)]] ++ two_block_chain))).
Proof.
  apply (skipped_prefix_is_ignored true _ _ [VStr "junk"] [VDict [("x", VInt 1)]]
           two_block_chain); reflexivity.
Defined.

Lemma unverifiable_ledger_is_rejected_witness :
  verify_ledger true true (store_of unmappable_ledger)
  = (Ok false, printed NoVerifiableBlocks (store_of unmappable_ledger))
  /\ fst (verify_ledger true false (store_of unmappable_ledger)) <> Ok true.
Proof.
  apply (unverifiable_ledger_is_rejected true (store_of unmappable_ledger) unmappable_ledger);
    [reflexivity | discriminate | reflexivity].
Defined.

Lemma verify_raises_on_bad_index_witness :
  fst (verify_ledger true true (store_of two_block_chain)) = Ok true
  /\ fst (verify_ledger true true (store_of (two_block_chain ++ [VDict misindexed_record])))
     = Raise ValueError.
Proof.
  split; [vm_compute; reflexivity |].
  apply (verify_raises_on_bad_index true true (store_of two_block_chain)
           (store_of (two_block_chain ++ [VDict misindexed_record]))
           two_block_chain misindexed_record [] ValueError);
    [reflexivity | vm_compute; reflexivity | reflexivity
     | right; right; reflexivity | vm_compute; reflexivity].
Defined.


Lemma migrate_backup_is_exact_copy_witness :
  files (snd (migrate_ledger_in_place true (store_of unmappable_ledger)))
    !! with_suffix LEDGER_PATH ".bak"
  = files (store_of unmappable_ledger) !! LEDGER_PATH
  /\ files (snd (migrate_ledger_in_place false (store_of unmappable_ledger)))
       !! with_suffix LEDGER_PATH ".bak"
     = files (store_of unmappable_ledger) !! with_suffix LEDGER_PATH ".bak".
Proof.
  apply (migrate_backup_is_exact_copy (store_of unmappable_ledger) unmappable_ledger);
    [reflexivity | discriminate].
Defined.


Lemma hash_block_ignores_key_order_witness :
  hash_block (_canonical_block_for_hash 0 "sentinel" "P0" t1000 "GENESIS")
  = hash_block reversed_block.
Proof.
  apply (hash_block_ignores_key_order
           (_canonical_block_for_hash 0 "sentinel" "P0" t1000 "GENESIS") reversed_block).
  - exact (Permutation_rev (_canonical_block_for_hash 0 "sentinel" "P0" t1000 "GENESIS")).
  - apply (bool_decide_unpack _). vm_compute. exact I.
Defined.

Lemma migrated_records_have_minimum_fields_witness :
  exists new_ledger,
    fst (load_ledger (snd (migrate_ledger_in_place true (store_of mixed_ledger))))
    = Ok new_ledger
    /\ Forall (fun b => match b with
                        | VDict d => _has_minimum_fields_for_hash d = true
                        | _ => False
                        end) new_ledger.
Proof.
  apply (migrated_records_have_minimum_fields true (store_of mixed_ledger) 1 1 2);
    [vm_compute; reflexivity | lia].
Defined.

Lemma verify_announces_verdict_witness :
  exists pre m,
    stdout (printed NoVerifiableBlocks (store_of unmappable_ledger))
    = stdout (store_of unmappable_ledger) ++ pre ++ [m]
    /\ (pre = [] \/ exists start, true = true /\ (0 < start)%nat /\ pre = [SkippingLegacy start])
    /\ is_acceptance m = false
    /\ forall l k, fst (load_ledger (store_of unmappable_ledger)) = Ok l ->
                   position_of m = Some k -> (k < length l)%nat.
Proof.
  apply (verify_announces_verdict true true (store_of unmappable_ledger) false
           (printed NoVerifiableBlocks (store_of unmappable_ledger))).
  reflexivity.
Defined.

Lemma migrate_reports_its_counts_witness :
  stdout (snd (migrate_ledger_in_place true (store_of mixed_ledger)))
  = [ BackupWritten (with_suffix LEDGER_PATH ".bak"); Quarantined 1; MigrationComplete 1 ].
Proof.
  apply (migrate_reports_its_counts true (store_of mixed_ledger) 1 1 2).
  vm_compute; reflexivity.
Defined.

Lemma malformed_ledger_stops_everything_witness :
  (forall organ tier now,
     append_ledger_entry organ tier now garbled_store
     = (Raise (RuntimeError NotValidJson), garbled_store))
  /\ (forall strict allow,
        verify_ledger strict allow garbled_store
        = (Raise (RuntimeError NotValidJson), garbled_store))
  /\ (forall backup,
        migrate_ledger_in_place backup garbled_store
        = (Raise (RuntimeError NotValidJson), garbled_store)).
Proof.
  apply (malformed_ledger_stops_everything garbled_store (RuntimeError NotValidJson)).
  reflexivity.
Defined.

